(** * bake init: template resolution, expansion, manifest merge and hooks

    A shallow embedding of [lib/template.js] (class [Template]) and the
    properties of it that the specification states.

    - JSON documents are an inductive type; a JavaScript object that the
      code uses as a dictionary is a finite map from property names to
      values.
    - Promises are run to completion where the code creates them: a
      promise is represented by the outcome it settles with, and the world
      (file system, module cache, instance fields, trace of effects) is
      passed explicitly, in the order in which the [then] chains of the
      source sequence the callbacks.
    - What the class inherits from [./cli] (logging, [exec], [CLI.fail],
      the [resolve]/[file]/[directory] helpers) is not part of this source
      file: [exec] is a parameter, the rest is modelled from the
      specification and marked as such. *)

From stdpp Require Import gmap strings list fin_maps pretty.

#[local] Set Warnings "-register-all,-clear-no-such-hyp".
#[local] Open Scope string_scope.

(** ** JSON values and the JavaScript operations the code applies to them *)

Module JS.

(** A parsed JSON document. Numbers are kept as integers: the code never
    computes with them, it only tests them for truthiness. *)
Inductive Json :=
| JNull
| JBool (b : bool)
| JNumber (n : Z)
| JString (s : string)
| JArray (l : list Json)
| JObject (m : gmap string Json).

(** An in-memory property value: [None] is JavaScript's [undefined], which
    no parsed document contains but [opts] of [mergeJSON] does. *)
Abbreviation value := (option Json).

(** An in-memory object, as far as [Object.assign] and [JSON.stringify] see
    it: its own enumerable properties. *)
Abbreviation object := (gmap string value).

(** ToBoolean on a JSON value. *)
Definition truthy (v : Json) : bool :=
  match v with
  | JNull => false
  | JBool b => b
  | JNumber n => negb (n =? 0)%Z
  | JString s => negb (String.eqb s "")
  | JArray _ | JObject _ => true
  end.

(** ToBoolean on a property value ([undefined] is falsy). *)
Definition truthy_v (v : value) : bool := from_option truthy false v.

(** The own enumerable string-keyed properties of ToObject(v): the entries
    of an object, the indexed elements of an array, the indexed characters
    of a string; numbers, booleans and [null] have none. *)
Definition props (v : Json) : gmap string Json :=
  match v with
  | JObject m => m
  | JArray l => list_to_map (imap (λ i x, (pretty i, x)) l)
  | JString s =>
      list_to_map
        (imap (λ i c, (pretty i, JString (String c EmptyString)))
              (String.list_ascii_of_string s))
  | JNull | JBool _ | JNumber _ => ∅
  end.

(** The properties a source contributes to [Object.assign]: [undefined]
    and [null] sources are skipped. *)
Definition own (v : value) : gmap string Json := from_option props ∅ v.

(** [v.k] for a data property name [k]: reading a property of [null]
    raises a TypeError ([None]); otherwise the result is the own property
    or [undefined]. (The names the code reads, [dependencies],
    [devDependencies], [bake], [scripts] and the hook names, are not
    inherited from any prototype.) *)
Definition get (v : Json) (k : string) : option value :=
  match v with
  | JNull => None
  | _ => Some (props v !! k)
  end.

(** [Object.assign(target, ...sources)]: sources are copied left to right,
    a later source overwrites an earlier one. Property names are ordinary
    data names; the accessor [__proto__] inherited from [Object.prototype]
    is outside the model. *)
Definition assign {A} (target : gmap string A) (sources : list (gmap string A))
  : gmap string A :=
  foldl (λ acc src, src ∪ acc) target sources.

(** [JSON.stringify(o, null, 2)], up to layout and the order of the keys:
    the text is identified with the document it denotes. A property whose
    value is [undefined] is left out. *)
Definition stringify (o : object) : Json := JObject (omap id o).

(** The body of the promise in [mergeJSON], between the two [require]s and
    [fs.writeFile]: [data] is the destination manifest, [json] the
    template's. [None] is a TypeError (a property read on [null]). *)
Definition merge (data json : Json) : option object :=
  devs ← get json "devDependencies";
  deps ← get json "dependencies";
  let opts : object := {[ "bake" := None ]} in
  opts ← (if truthy_v devs
          then d ← get data "devDependencies";
               Some (<["devDependencies" := Some (JObject (assign ∅ [own devs; own d]))]> opts)
          else Some opts);
  opts ← (if truthy_v deps
          then d ← get data "dependencies";
               Some (<["dependencies" := Some (JObject (assign ∅ [own deps; own d]))]> opts)
          else Some opts);
  Some (assign ∅ [Some <$> props json; Some <$> props data; opts]).

(** The field [k] of a document as a dependency map: no keys when the field
    is absent. *)
Definition field (doc : Json) (k : string) : gmap string Json :=
  own (props doc !! k).

End JS.
Export JS.

(** ** The file system

    A tree of directories and files. A path is the list of its segments
    from the root, so [path.join(dir, name)] is [dir ++ [name]] and
    [path.basename] is the last segment. *)

Module FS.

Abbreviation path := (list string).

(** What a file holds: JSON text, identified with the document it denotes,
    or any other bytes (which [require] fails to parse). *)
Inductive content :=
| Bytes (s : string)
| Document (doc : Json).

Inductive node :=
| File (c : content)
| Dir (entries : gmap string node).

Fixpoint lookup_path (p : path) (n : node) : option node :=
  match p with
  | [] => Some n
  | name :: p' =>
      match n with
      | Dir entries => entries !! name ≫= lookup_path p'
      | File _ => None
      end
  end.

(** [fs.existsSync] *)
Definition existsSync (p : path) (fs : node) : bool :=
  match lookup_path p fs with Some _ => true | None => false end.

Definition isFile (p : path) (fs : node) : bool :=
  match lookup_path p fs with Some (File _) => true | _ => false end.

Definition isDirectory (p : path) (fs : node) : bool :=
  match lookup_path p fs with Some (Dir _) => true | _ => false end.

(** [fs.readdirSync]: the names of the entries of a directory; [None] when
    the path is not a directory (the call throws). *)
Definition readdirSync (p : path) (fs : node) : option (list string) :=
  match lookup_path p fs with
  | Some (Dir entries) => Some (map fst (map_to_list entries))
  | _ => None
  end.

(** Creating or overwriting the file at [p] ([fs.createWriteStream] followed
    by the piped bytes, or [fs.writeFile]): fails ([None]) when the parent is
    not an existing directory or [p] is itself a directory. *)
Fixpoint write_file (p : path) (c : content) (n : node) : option node :=
  match p, n with
  | name :: p', Dir entries =>
      match p' with
      | [] =>
          match entries !! name with
          | Some (Dir _) => None
          | _ => Some (Dir (<[name := File c]> entries))
          end
      | _ =>
          child ← entries !! name;
          child' ← write_file p' c child;
          Some (Dir (<[name := child']> entries))
      end
  | _, _ => None
  end.

(** [path.basename] *)
Definition basename (p : path) : string := List.last p "".

End FS.
Export FS.

(** ** The process: instance fields, module cache, and the trace of effects *)

(** An entry of [this.templates], as [loadTemplates] builds it. *)
Record loaded_template := LoadedTemplate {
  tpl_dir : path;
  tpl_name : string;
  tpl_json : Json;
}.

Inductive error :=
| FsError (p : path)          (* a failed read, write or directory listing *)
| ParseError (p : path)       (* [require] of a file that is not JSON *)
| TypeError
| ScriptError (script : Json) (* [exec]: spawn failure or non-zero exit *).

(** The logger methods of the CLI base class. *)
Inductive level := info | warning | debug | success | verbose.

(** The messages of the source, by their format string (the padding that
    [this.pad] inserts is layout and left out). *)
Inductive message :=
| Running (name : string) (args : list string)
| AlreadyExistsMerging (name : string)
| AlreadyExistsSkipping (filename : string)
| Streaming (filename : string) (dest : path)
| FinishedStreamingFile (filename : string)
| Copied (file dest : path)
| FinishedStreamingContent (filename : string)
| FinishedMerging (filename : string)
| JSONResult (result : object)
| Invoke (name : string)
| Script (name : string)
| LoadTemplates (n : nat)
| LoadTemplatesFrom (dir : path)
| Help
| NoTemplate (name : string)
| Caught (e : error).

Inductive event :=
| Log (l : level) (m : message)
| Spawn (name : string) (script : Json) (* [script(name)] hands [script] to [exec] *)
| Readdir (dir : path)
| Read (file : path)
| Written (dest : path)
| Fail (m : message)                     (* [CLI.fail] *)
| Ended                                  (* [this.end()] *).

Record world := World {
  fs : node;
  cwd : path;                  (* [path.resolve()] *)
  cache : gmap path Json;      (* the module cache of [require] *)
  templates : list loaded_template;   (* [this.templates] *)
  scripts : value;             (* [this.scripts] *)
  trace : list event;
}.

Definition emit (e : event) (w : world) : world :=
  World w.(fs) w.(cwd) w.(cache) w.(templates) w.(scripts) (w.(trace) ++ [e])%list.

Definition set_fs (fs' : node) (w : world) : world :=
  World fs' w.(cwd) w.(cache) w.(templates) w.(scripts) w.(trace).

Definition set_cache (c : gmap path Json) (w : world) : world :=
  World w.(fs) w.(cwd) c w.(templates) w.(scripts) w.(trace).

Definition set_scripts (s : value) (w : world) : world :=
  World w.(fs) w.(cwd) w.(cache) w.(templates) s w.(trace).

Definition set_templates (ts : list loaded_template) (w : world) : world :=
  World w.(fs) w.(cwd) w.(cache) ts w.(scripts) w.(trace).

(** Modelled from the spec: the logging methods [info], [warning], [debug],
    [success] and [verbose] of the command-dispatch wrapper ([./cli]); they
    report a message and do nothing else. *)
Definition log (l : level) (m : message) (w : world) : world := emit (Log l m) w.

(** How a promise settles. [Uncaught] is an error event nobody listens to:
    it settles nothing and ends the process. *)
Inductive outcome :=
| Resolved
| Rejected (e : error)
| Uncaught (e : error).

(** How the process stands when [run] or [init] is over. *)
Inductive completion :=
| Fulfilled               (* the returned promise resolved *)
| Unhandled (e : error)   (* the returned promise rejected; no handler in this class *)
| Exited                  (* [CLI.fail] ended the process *)
| Crashed (e : error)     (* uncaught exception *).

(** Modelled from the spec: [CLI.fail] of [./cli], the failure reporter
    ([fail(message) -> terminates]): it reports the message and ends the
    process. *)
Definition CLI_fail (m : message) (w : world) : completion * world :=
  (Exited, emit (Fail m) w).

(** [p.then(f)] on a settled promise. *)
Definition and_then (p : outcome * world) (f : world → outcome * world)
  : outcome * world :=
  match p with
  | (Resolved, w) => f w
  | (o, w) => (o, w)
  end.

(** [require(p)]: the cached module if there is one, else the parsed file,
    which is then cached. Only regular files are resolved (the resolution
    of a directory through its own manifest or index file is not
    modelled). *)
Definition require (p : path) (w : world) : (Json + error) * world :=
  match w.(cache) !! p with
  | Some j => (inl j, w)
  | None =>
      match lookup_path p w.(fs) with
      | Some (File (Document j)) => (inl j, emit (Read p) (set_cache (<[p := j]> w.(cache)) w))
      | Some (File (Bytes _)) => (inr (ParseError p), emit (Read p) w)
      | _ => (inr (FsError p), w)
      end
  end.

(** [Promise.all(promises)]; [promises] is [undefined] ([None]) when
    [expandTemplateDirectory] returned the template itself, and then the
    call rejects with a TypeError. *)
Definition Promise_all (promises : option (list outcome)) : outcome :=
  match promises with
  | None => Rejected TypeError
  | Some ps => default Resolved (List.find (λ o, match o with Resolved => false | _ => true end) ps)
  end.

(** The two lifecycle phases and the names [invoke] is called with. *)
Inductive phase := start | install.

Definition phase_name (p : phase) : string :=
  match p with start => "start" | install => "install" end.

(** ** class Template *)

Section Template.

(** [this.exec(script)] of the CLI base class runs a shell command. The
    command is a parameter: [exec script fs] is whether it exited with
    status zero and the file system it leaves. *)
Variable exec : Json → node → bool * node.

(** Modelled from the spec: the path helpers of [./cli]. [this.resolve(dir)]
    joins a directory and an entry name; [this.basename] is [path.basename];
    [this.exists], [this.file] and [this.directory] test that a path exists,
    is a regular file, is a directory ([existsSync], [isFile] and
    [isDirectory] below stand for them). *)
Definition resolve (dir : path) (name : string) : path := (dir ++ [name])%list.

Definition stream (file dest : path) (w : world) : outcome * world :=
  let existing := existsSync dest w.(fs) in
  let filename := basename dest in
  let w := if existing
           then log warning (AlreadyExistsSkipping filename) w
           else log info (Streaming filename dest) w in
  match lookup_path file w.(fs) with
  | Some (File c) =>
      let w := emit (Read file) w in
      if existing then (Resolved, w)
      else match write_file dest c w.(fs) with
           | Some fs' =>
               (Resolved,
                log success (FinishedStreamingFile filename)
                    (emit (Written dest) (set_fs fs' w)))
           | None => (Rejected (FsError dest), w)
           end
  | _ => (Uncaught (FsError file), w)
  end.

Definition mergeJSON (file dest : path) (w : world) : outcome * world :=
  let name := basename file in
  let w := log warning (AlreadyExistsMerging name) w in
  match require dest w with
  | (inr e, w) => (Rejected e, w)
  | (inl data, w) =>
      match require file w with
      | (inr e, w) => (Rejected e, w)
      | (inl json, w) =>
          match merge data json with
          | None => (Rejected TypeError, w)
          | Some result =>
              let w := log verbose (JSONResult result) w in
              match write_file dest (Document (stringify result)) w.(fs) with
              | Some fs' => (Resolved, emit (Written dest) (set_fs fs' w))
              | None => (Rejected (FsError dest), w)
              end
          end
      end
  end.

Definition json (file dest : path) (w : world) : outcome * world :=
  if existsSync dest w.(fs)
  then and_then (mergeJSON file dest w)
                (λ w, (Resolved, log debug (FinishedMerging (basename file)) w))
  else stream file dest w.

Definition template (file dest : path) (w : world) : outcome * world :=
  if String.eqb (basename file) "package.json"
  then json file dest w
  else stream file dest w.

(** One element of [files.map(...)] in [expandTemplateDirectory]: the
    per-file operation and its [then] callback. *)
Definition expand_file (file : path) (w : world) : outcome * world :=
  let dest := resolve w.(cwd) (basename file) in
  and_then (template file dest w)
           (λ w, (Resolved,
                  log debug (FinishedStreamingContent (basename file))
                      (log info (Copied file dest) w))).

(** [files.map(...)]: every operation is started, whatever the others do. *)
Fixpoint expand_files (files : list path) (w : world) : list outcome * world :=
  match files with
  | [] => ([], w)
  | file :: files =>
      let '(o, w) := expand_file file w in
      let '(os, w) := expand_files files w in
      (o :: os, w)
  end.

(** The result is the template and, when the directory exists, the
    [promises] field added to its copy; [inr] is an exception thrown by
    [fs.readdirSync]. [this.file] is modelled from the spec (directories
    are ignored, not recursed). *)
Definition expandTemplateDirectory (t : loaded_template) (w : world)
  : (loaded_template * option (list outcome) + error) * world :=
  let dir := t.(tpl_dir) in
  if negb (existsSync dir w.(fs)) then (inl (t, None), w)
  else match readdirSync dir w.(fs) with
       | None => (inr (FsError dir), w)
       | Some names =>
           let w := emit (Readdir dir) w in
           let files := List.filter (λ f, isFile f w.(fs)) (map (resolve dir) names) in
           let '(promises, w) := expand_files files w in
           (inl (t, Some promises), w)
       end.

(** [scripts[name] || ''], with [scripts = this.scripts || {}]: the
    configured script, if it is truthy. *)
Definition configured (w : world) (name : string) : option Json :=
  scripts ← (match w.(scripts) with
             | Some s => if truthy s then Some s else None
             | None => None
             end);
  script ← props scripts !! name;
  if truthy script then Some script else None.

Definition script (name : string) (w : world) : outcome * world :=
  match configured w name with
  | None => (Resolved, w)
  | Some script =>
      let w := log info (Script name) w in
      let '(ok, fs') := exec script w.(fs) in
      (if ok then Resolved else Rejected (ScriptError script),
       set_fs fs' (emit (Spawn name script) w))
  end.

Definition invoke (p : phase) (w : world) : outcome * world :=
  let name := phase_name p in
  let w := log debug (Invoke name) w in
  and_then (and_then (script ("pre" ++ name) w) (script name))
           (script ("post" ++ name)).

(** [v || {}] *)
Definition or_empty (v : value) : Json :=
  match v with
  | Some j => if truthy j then j else JObject ∅
  | None => JObject ∅
  end.

(** [this.templates.find(template => template.name === name)] *)
Definition find_template (name : string) (ts : list loaded_template) : option loaded_template :=
  List.find (λ t, String.eqb t.(tpl_name) name) ts.

Definition run (name : option string) (args : list string) (w : world)
  : completion * world :=
  let name := default "default" name in
  match find_template name w.(templates) with
  | None => CLI_fail (NoTemplate name) w
  | Some t =>
      let w := log info (Running name args) w in
      let config := if truthy t.(tpl_json)
                    then or_empty (props t.(tpl_json) !! "bake")
                    else JObject ∅ in
      let w := set_scripts (Some (or_empty (props config !! "scripts"))) w in
      match invoke start w with
      | (Resolved, w) =>
          match expandTemplateDirectory t w with
          | (inr e, w) => (Unhandled e, w)
          | (inl (_, promises), w) =>
              match and_then (Promise_all promises, w) (invoke install) with
              | (Resolved, w) => (Fulfilled, w)
              | (Rejected e, w) => CLI_fail (Caught e) w
              | (Uncaught e, w) => (Crashed e, w)
              end
          end
      | (Rejected e, w) => (Unhandled e, w)
      | (Uncaught e, w) => (Crashed e, w)
      end
  end.

(** [argv] is [args._] after parsing; [help] is [this.argv.help]. *)
Definition init (help : bool) (argv : list string) (w : world) : completion * world :=
  if help then (Fulfilled, log debug Help w)
  else match run (head argv) (tail argv) w with
       | (Fulfilled, w) => (Fulfilled, emit Ended w)
       | r => r
       end.

(** [this.directory] and [this.exists] are modelled from the spec
    (immediate subdirectories; non-existent roots silently skipped). *)
Definition loadTemplatesFrom (dir : path) (w : world) : (list path + error) * world :=
  let w := log debug (LoadTemplatesFrom dir) w in
  match readdirSync dir w.(fs) with
  | None => (inr (FsError dir), w)
  | Some names =>
      (inl (List.filter (λ d, isDirectory d w.(fs)) (map (resolve dir) names)),
       emit (Readdir dir) w)
  end.

(** [.map(this.loadTemplatesFrom, this).reduce(concat, [])] *)
Fixpoint load_dirs (dirs : list path) (w : world) : (list path + error) * world :=
  match dirs with
  | [] => (inl [], w)
  | dir :: dirs =>
      match loadTemplatesFrom dir w with
      | (inr e, w) => (inr e, w)
      | (inl ds, w) =>
          match load_dirs dirs w with
          | (inr e, w) => (inr e, w)
          | (inl ds', w) => (inl (ds ++ ds')%list, w)
          end
      end
  end.

(** The last [.map] of [loadTemplates]. *)
Fixpoint load_manifests (dirs : list path) (w : world) : (list loaded_template + error) * world :=
  match dirs with
  | [] => (inl [], w)
  | dir :: dirs =>
      let json := resolve dir "package.json" in
      let r := if existsSync json w.(fs) then require json w else (inl (JObject ∅), w) in
      match r with
      | (inr e, w) => (inr e, w)
      | (inl j, w) =>
          match load_manifests dirs w with
          | (inr e, w) => (inr e, w)
          | (inl ts, w) => (inl (LoadedTemplate dir (basename dir) j :: ts), w)
          end
      end
  end.

(** [dirs] is [this.directories]. *)
Definition loadTemplates (dirs : list path) (w : world)
  : (list loaded_template + error) * world :=
  let w := log debug (LoadTemplates (length dirs)) w in
  match load_dirs (List.filter (λ d, existsSync d w.(fs)) dirs) w with
  | (inr e, w) => (inr e, w)
  | (inl dirs, w) => load_manifests dirs w
  end.

(** The getter [directories]: the search roots in priority order. [home]
    is [this.home], [dirname] is [__dirname]. *)
Definition directories (home dirname : path) : list path :=
  [ (home ++ [".config"; "bake"; "templates"])%list;
    (home ++ [".bake"; "templates"])%list;
    (removelast dirname ++ ["templates"])%list ].

(** The constructor: [this.templates = this.loadTemplates()]; [inr] is an
    exception thrown while loading. ([this.names] is only read by [has] and
    [help] and is left out.) *)
Definition construct (home dirname : path) (w : world) : (unit + error) * world :=
  match loadTemplates (directories home dirname) w with
  | (inr e, w) => (inr e, w)
  | (inl ts, w) => (inl (), set_templates ts w)
  end.

(** [this.names], which the constructor computes from [this.templates]:
    [this.templates.map(dir => dir.name)]. *)
Definition names (ts : list loaded_template) : list string := map tpl_name ts.

(** [names.indexOf(name)]: the index of the first occurrence, or [-1]. *)
Fixpoint indexOf (name : string) (names : list string) : Z :=
  match names with
  | [] => -1
  | n :: names =>
      if String.eqb n name then 0
      else let i := indexOf name names in
           if (i =? -1)%Z then -1 else (i + 1)%Z
  end.

(** [names] defaults to [this.names]. *)
Definition has (name : string) (names : list string) : bool :=
  negb (indexOf name names =? -1)%Z.

End Template.

(** ** Vocabulary of the properties *)

(** What [opts] holds for the field [f]. *)
Definition recomputed (E T : Json) (f : string) : object :=
  if truthy_v (props T !! f)
  then {[ f := Some (JObject (field E f ∪ field T f)) ]}
  else ∅.

(** The names of the three sub-hooks of a phase, in the order of [invoke]. *)
Definition hook_names (p : phase) : list string :=
  ["pre" ++ phase_name p; phase_name p; "post" ++ phase_name p].

(** The sub-hooks among [names] that have a script, with their scripts. *)
Definition configured_among (names : list string) (w : world) : list (string * Json) :=
  omap (λ name, pair name <$> configured w name) names.

Definition configured_hooks (p : phase) (w : world) : list (string * Json) :=
  configured_among (hook_names p) w.

(** The commands handed to [exec], as a trace records them. *)
Definition spawns (tr : list event) : list (string * Json) :=
  omap (λ e, match e with Spawn name s => Some (name, s) | _ => None end) tr.

(** The messages handed to [CLI.fail], as a trace records them. *)
Definition reports (tr : list event) : list message :=
  omap (λ e, match e with Fail m => Some m | _ => None end) tr.

(** What a trace gained since an earlier one. *)
Definition since (w w' : world) : list event := drop (length (trace w)) (trace w').

(** The events of running the scripts called [names]. *)
Definition script_event (names : list string) (e : event) : Prop :=
  match e with
  | Log info (Script n) | Spawn n _ => n ∈ names
  | _ => False
  end.

(** The instance and process state that neither hooks nor file operations
    touch. *)
Definition same_process (w w' : world) : Prop :=
  cwd w' = cwd w ∧ templates w' = templates w ∧ scripts w' = scripts w.

(** The events of a lifecycle phase: the announcement of [invoke] and the
    events of its three sub-hooks. *)
Definition phase_event (p : phase) (e : event) : Prop :=
  e = Log debug (Invoke (phase_name p)) ∨ script_event (hook_names p) e.

(** The events of file expansion: directory listings, reads and writes, and
    the messages of the per-file operations. *)
Definition expansion_event (e : event) : Prop :=
  match e with
  | Readdir _ | Read _ | Written _ => True
  | Log _ (AlreadyExistsMerging _ | AlreadyExistsSkipping _ | Streaming _ _
          | FinishedStreamingFile _ | Copied _ _ | FinishedStreamingContent _
          | FinishedMerging _ | JSONResult _) => True
  | _ => False
  end.

(** What [run] itself reports. *)
Definition report_event (e : event) : Prop :=
  match e with
  | Log info (Running _ _) | Fail _ => True
  | _ => False
  end.

(** [w'] is [w] after some events of the class [P], with the instance
    fields as they were. *)
Definition advances (P : event → Prop) (w w' : world) : Prop :=
  same_process w w' ∧ ∃ tr, trace w' = (trace w ++ tr)%list ∧ Forall P tr.

(** The immediate subdirectories of a directory, as [loadTemplatesFrom]
    lists them. *)
Definition subdirectories (dir : path) (fs : node) : list path :=
  match readdirSync dir fs with
  | Some names => List.filter (λ d, isDirectory d fs) (map (resolve dir) names)
  | None => []
  end.

(** The module cache agrees with the files: what is cached for a path is
    the document of the file at that path. (It does at process start, when
    the cache is empty.) *)
Definition coherent (w : world) : Prop :=
  ∀ p j, cache w !! p = Some j → lookup_path p (fs w) = Some (File (Document j)).

(** What [require] returns for the manifest a template directory holds:
    the empty object stands for a directory without one, [None] for a
    [package.json] that cannot be loaded. *)
Definition manifest_of (dir : path) (fs : node) : option Json :=
  match lookup_path (resolve dir "package.json") fs with
  | None => Some (JObject ∅)
  | Some (File (Document doc)) => Some doc
  | Some _ => None
  end.

(** Every root that exists is a directory, and every template directory
    holds a [package.json] that is JSON, or none. *)
Definition loadable (roots : list path) (fs : node) : Prop :=
  (∀ r, r ∈ roots → existsSync r fs = true → isDirectory r fs = true) ∧
  (∀ r name, r ∈ roots → isDirectory (resolve r name) fs = true →
             is_Some (manifest_of (resolve r name) fs)).

Section Sequencing.

Variable exec : Json → node → bool * node.

(** The file system that the scripts leave when run one after the other. *)
Definition run_in_sequence (hooks : list (string * Json)) (fs : node) : node :=
  foldl (λ fs h, (exec h.2 fs).2) fs hooks.

(** A chain [script(n1).then(script(n2)).then(...)]. *)
Fixpoint chain (names : list string) (w : world) : outcome * world :=
  match names with
  | [] => (Resolved, w)
  | name :: names => and_then (script exec name w) (chain names)
  end.

End Sequencing.

(** ** Example worlds (the scenarios of the specification) *)

Module Scenario.

(** A shell in which [false] fails and every other command succeeds,
    leaving the files as they are. *)
Definition sh (script : Json) (fs : node) : bool * node :=
  (match script with JString "false" => false | _ => true end, fs).

Definition manifest_A : Json :=
  JObject {[ "bake" := JObject {[ "scripts" := JObject {[ "install" := JString "echo done" ]} ]} ]}.

Definition node_template (manifest : Json) : node :=
  Dir {[ "Makefile" := File (Bytes "all: build");
         "package.json" := File (Document manifest);
         "utils.sh" := File (Bytes "#!/bin/sh") ]}.

(** The bundled root [/templates] holds the template [node]; the project
    directory [/project] holds [entries]. *)
Definition disk (manifest : Json) (entries : gmap string node) : node :=
  Dir {[ "templates" := Dir {[ "node" := node_template manifest ]};
         "project" := Dir entries ]}.

Definition boot (fs : node) : world := World fs ["project"] ∅ [] None [].

(** The process once the constructor has run, with the home directory
    [/home] and the library in [/lib], so that the bundled templates are in
    [/templates]. *)
Definition loaded (fs : node) : world := (construct ["home"] ["lib"] (boot fs)).2.

Definition lodash3 : Json :=
  JObject {[ "dependencies" := JObject {[ "lodash" := JString "^3.0.0" ]} ]}.

Definition lodash4_chalk2 : Json :=
  JObject {[ "dependencies" := JObject {[ "lodash" := JString "^4.0.0";
                                           "chalk" := JString "^2.0.0" ]} ]}.

(** Scenario B: the in-memory result of merging the template manifest into
    the destination's. *)
Definition merged_B : object := default ∅ (merge lodash3 lodash4_chalk2).

(** A manifest with a hook in both phases. *)
Definition manifest_hooks : Json :=
  JObject {[ "bake" := JObject {[ "scripts" :=
    JObject {[ "start" := JString "echo start"; "install" := JString "echo done" ]} ]} ]}.

(** A manifest whose [start] hook fails, and one whose [install] hook
    fails. *)
Definition manifest_start_fails : Json :=
  JObject {[ "bake" := JObject {[ "scripts" := JObject {[ "start" := JString "false" ]} ]} ]}.

Definition manifest_install_fails : Json :=
  JObject {[ "bake" := JObject {[ "scripts" := JObject {[ "install" := JString "false" ]} ]} ]}.

(** Two roots that both hold a template [node], with different manifests,
    behind a first root that does not exist. *)
Definition shadowing_disk : node :=
  Dir {[ "templates" := Dir {[ "node" := node_template manifest_A ]};
         "bundled" := Dir {[ "node" := node_template manifest_hooks;
                             "es6" := node_template (JObject ∅) ]};
         "project" := Dir ∅ ]}.

Definition three_roots : list path :=
  [["home"; ".config"; "bake"; "templates"]; ["templates"]; ["bundled"]].

(** A template manifest with fields of its own. *)
Definition named_template : Json :=
  JObject {[ "name" := JString "template"; "version" := JString "1.0.0" ]}.

(** A destination manifest that itself carries a [bake] key. *)
Definition baked_destination : Json :=
  JObject {[ "name" := JString "app"; "bake" := JObject ∅ ]}.

(** The template [node] of the bundled root, as the constructor loads it. *)
Definition node_of (manifest : Json) : loaded_template :=
  LoadedTemplate ["templates"; "node"] "node" manifest.

(** A template with a subdirectory and no manifest, in a root of its own. *)
Definition nested_template : node :=
  Dir {[ "Makefile" := File (Bytes "all: build");
         "src" := Dir {[ "index.js" := File (Bytes "main()") ]} ]}.

Definition nested_disk : node :=
  Dir {[ "templates" := Dir {[ "lib" := nested_template ]};
         "project" := Dir ∅ ]}.

(** The three sub-hooks of [start], the second of which fails. *)
Definition start_scripts : Json :=
  JObject {[ "prestart" := JString "echo pre"; "start" := JString "false";
             "poststart" := JString "echo post" ]}.

End Scenario.

(** ** Object.assign and the manifest merge *)

Section Merge.

Implicit Types (E T : Json) (r : object) (k f : string).

Lemma get_Some v k o : get v k = Some o → v ≠ JNull ∧ o = props v !! k.
Proof. destruct v; simpl; intros [= <-]; done. Qed.

Lemma get_not_null v k : v ≠ JNull → get v k = Some (props v !! k).
Proof. by destruct v. Qed.

(** A falsy value contributes no property. *)
Lemma falsy_own (o : value) : truthy_v o = false → own o = ∅.
Proof.
  destruct o as [[| b | n | s | l | m]|]; simpl; try done.
  intros Hs. apply negb_false_iff, String.eqb_eq in Hs. by subst.
Qed.

Lemma merge_Some E T r :
  merge E T = Some r →
  r = (recomputed E T "dependencies" ∪ (recomputed E T "devDependencies" ∪ {[ "bake" := None ]}))
      ∪ ((Some <$> props E) ∪ (Some <$> props T)).
Proof.
  unfold merge, recomputed, field. intros Hm.
  destruct (get T "devDependencies") as [devs|] eqn:Hdevs; simpl in Hm; [|done].
  destruct (get T "dependencies") as [deps|] eqn:Hdeps; simpl in Hm; [|done].
  apply get_Some in Hdevs as [HT ->]. apply get_Some in Hdeps as [_ ->].
  destruct (truthy_v (props T !! "devDependencies")) eqn:Hdv; simpl in Hm.
  - destruct (get E "devDependencies") as [d|] eqn:Hd; simpl in Hm; [|done].
    apply get_Some in Hd as [_ ->].
    destruct (truthy_v (props T !! "dependencies")) eqn:Hdp; simpl in Hm.
    + destruct (get E "dependencies") as [d|] eqn:Hd; simpl in Hm; [|done].
      apply get_Some in Hd as [_ ->].
      injection Hm as <-. rewrite !(right_id_L ∅ (∪)).
      by rewrite !insert_union_singleton_l.
    + injection Hm as <-. rewrite !(right_id_L ∅ (∪)), (left_id_L ∅ (∪)).
      by rewrite !insert_union_singleton_l.
  - destruct (truthy_v (props T !! "dependencies")) eqn:Hdp; simpl in Hm.
    + destruct (get E "dependencies") as [d|] eqn:Hd; simpl in Hm; [|done].
      apply get_Some in Hd as [_ ->].
      injection Hm as <-. rewrite !(right_id_L ∅ (∪)), (left_id_L ∅ (∪)).
      by rewrite !insert_union_singleton_l.
    + injection Hm as <-. by rewrite !(right_id_L ∅ (∪)), !(left_id_L ∅ (∪)).
Qed.

Lemma recomputed_lookup E T f k :
  recomputed E T f !! k =
    if bool_decide (k = f) && truthy_v (props T !! f)
    then Some (Some (JObject (field E f ∪ field T f)))
    else None.
Proof.
  unfold recomputed. case_bool_decide as Hk; simpl.
  - subst. destruct (truthy_v _); [apply lookup_singleton_eq | apply lookup_empty].
  - destruct (truthy_v _); [by apply lookup_singleton_ne | apply lookup_empty].
Qed.

(** Every property of the merged document. *)
Lemma merge_out E T r k :
  merge E T = Some r →
  props (stringify r) !! k =
    if bool_decide (k = "bake") then None
    else if bool_decide (k = "dependencies" ∨ k = "devDependencies")
            && truthy_v (props T !! k)
         then Some (JObject (field E k ∪ field T k))
         else (props E ∪ props T) !! k.
Proof.
  intros ->%merge_Some. simpl. rewrite lookup_omap.
  rewrite !lookup_union, !recomputed_lookup, !lookup_fmap, lookup_singleton.
  repeat case_bool_decide; repeat case_decide; simplify_eq/=;
    first [ done
          | by destruct (truthy_v _), (props E !! _), (props T !! _)
          | by destruct (props E !! _), (props T !! _)
          | naive_solver ].
Qed.

Lemma merge_total E T : E ≠ JNull → T ≠ JNull → is_Some (merge E T).
Proof.
  intros HE HT. unfold merge. rewrite !(get_not_null T), !(get_not_null E) by done.
  simpl. by destruct (truthy_v _), (truthy_v _).
Qed.

Lemma merge_template_not_null E T r : merge E T = Some r → T ≠ JNull.
Proof. intros Hm ->. done. Qed.

(** The dependency maps of the merged document: the template's entries
    overlaid with the destination's. *)
Lemma merge_field E T r f :
  f = "dependencies" ∨ f = "devDependencies" →
  merge E T = Some r →
  field (stringify r) f = field E f ∪ field T f.
Proof.
  intros Hf Hm. unfold field at 1. rewrite (merge_out E T r f Hm).
  rewrite bool_decide_eq_false_2 by naive_solver.
  rewrite (bool_decide_eq_true_2 _ Hf). simpl.
  destruct (truthy_v (props T !! f)) eqn:Ht; [done|].
  unfold field. rewrite (falsy_own _ Ht), lookup_union.
  destruct (props E !! f) as [e|] eqn:He; simpl.
  - destruct (props T !! f); simpl; by rewrite (right_id_L ∅ (∪)).
  - rewrite (left_id_L ∅ (∪)). destruct (props T !! f) eqn:HT; simpl; [|done].
    by apply (falsy_own (Some j)).
Qed.


(** The merged document has no [bake] property. *)
Lemma merge_no_bake E T r : merge E T = Some r → props (stringify r) !! "bake" = None.
Proof. intros Hm. by rewrite (merge_out E T r "bake" Hm). Qed.

(** C4. Merging the template once more into the merged document gives the
    merged document again. *)
Theorem merge_idempotent E T r :
  merge E T = Some r →
  ∃ r', merge (stringify r) T = Some r' ∧ stringify r' = stringify r.
Proof.
  intros Hm.
  destruct (merge_total (stringify r) T) as [r' Hm']; [done | by eapply merge_template_not_null |].
  exists r'. split; [done|]. unfold stringify. f_equal. apply map_eq. intros k.
  change (props (stringify r') !! k = props (stringify r) !! k).
  rewrite (merge_out _ _ _ k Hm'), (merge_out _ _ _ k Hm).
  case_bool_decide; [done|].
  case_bool_decide as Hf; cbn [andb].
  - destruct (truthy_v (props T !! k)) eqn:Ht.
    + rewrite (merge_field E T r k Hf Hm).
      by rewrite <-(assoc_L (∪)), (idemp_L (∪)).
    + rewrite lookup_union, (merge_out _ _ _ k Hm).
      rewrite bool_decide_eq_false_2, (bool_decide_eq_true_2 _ Hf), Ht by done. cbn [andb].
      rewrite lookup_union. by destruct (props E !! k), (props T !! k).
  - rewrite lookup_union, (merge_out _ _ _ k Hm).
    rewrite !bool_decide_eq_false_2 by done. cbn [andb].
    rewrite lookup_union. by destruct (props E !! k), (props T !! k).
Qed.


End Merge.

(** ** The file system and the per-file operations *)

Section Files.

Implicit Types (p file dest : path) (w : world) (n : node).

Lemma write_file_cons name name' p c entries :
  write_file (name :: name' :: p) c (Dir entries) =
    child ← entries !! name;
    child' ← write_file (name' :: p) c child;
    Some (Dir (<[name := child']> entries)).
Proof. reflexivity. Qed.

Lemma write_file_lookup p c n n' :
  write_file p c n = Some n' → lookup_path p n' = Some (File c).
Proof.
  revert n n'. induction p as [|name p IH]; intros n n' Hw; [by destruct n|].
  destruct n as [|entries]; [done|].
  destruct p as [|name' p].
  - simpl in Hw. destruct (entries !! name) as [[]|]; simplify_eq; simpl;
      by rewrite lookup_insert_eq.
  - rewrite write_file_cons in Hw.
    destruct (entries !! name) as [child|]; [|done]. cbn [mbind option_bind] in Hw.
    destruct (write_file (name' :: p) c child) as [child'|] eqn:Hc; [|done].
    injection Hw as <-. cbn [lookup_path]. rewrite lookup_insert_eq.
    by apply (IH child).
Qed.

Lemma basename_resolve dir name : basename (resolve dir name) = name.
Proof. unfold basename, resolve. apply List.last_last. Qed.

(** What a resolved [mergeJSON] leaves at the destination: the merge of
    the two manifests that [require] returned. *)
Lemma mergeJSON_resolved file dest w w' :
  mergeJSON file dest w = (Resolved, w') →
  ∃ E T r w1 w2,
    require dest (log warning (AlreadyExistsMerging (basename file)) w) = (inl E, w1) ∧
    require file w1 = (inl T, w2) ∧
    merge E T = Some r ∧
    lookup_path dest (fs w') = Some (File (Document (stringify r))).
Proof.
  unfold mergeJSON. intros Hm.
  destruct (require dest _) as [[E|] w1] eqn:H1; [|done].
  destruct (require file w1) as [[T|] w2] eqn:H2; [|done].
  destruct (merge E T) as [r|] eqn:Hr; [|done].
  destruct (write_file dest _ _) as [fs'|] eqn:Hw; [|done].
  injection Hm as <-. exists E, T, r, w1, w2. split_and!; try done.
  by apply write_file_lookup in Hw.
Qed.

(** X3. A regular copy: the destination does not exist and can be created. The
    bytes of the source are at the destination, and the write and the
    success message are in the trace. *)
Theorem stream_copies file dest w c fs' :
  lookup_path file (fs w) = Some (File c) →
  existsSync dest (fs w) = false →
  write_file dest c (fs w) = Some fs' →
  ∃ w', stream file dest w = (Resolved, w') ∧
        fs w' = fs' ∧
        lookup_path dest (fs w') = Some (File c) ∧
        since w w' = [ Log info (Streaming (basename dest) dest); Read file;
                       Written dest; Log success (FinishedStreamingFile (basename dest)) ].
Proof.
  intros Hf He Hw. unfold stream. rewrite He. simpl. rewrite Hf. simpl. rewrite Hw.
  eexists. split_and!; try done.
  - simpl. by eapply write_file_lookup.
  - unfold since. simpl. by rewrite <-!(assoc_L (++)), drop_app_length.
Qed.

End Files.

(** ** Conflict policy *)

Section Conflict.

Implicit Types (file dest : path) (w : world).

(** C2, as the code has it. When the destination manifest exists, the
    document written in its place has no top-level [bake] key, whatever the
    two inputs held. When it does not exist, the template manifest is
    copied as it is, byte for byte. *)
Theorem json_written file dest w w' :
  json file dest w = (Resolved, w') →
  if existsSync dest (fs w)
  then ∃ out, lookup_path dest (fs w') = Some (File (Document out)) ∧
              props out !! "bake" = None
  else ∃ c, lookup_path file (fs w) = Some (File c) ∧
            lookup_path dest (fs w') = Some (File c).
Proof.
  unfold json. destruct (existsSync dest (fs w)) eqn:Hex.
  - unfold and_then. destruct (mergeJSON file dest w) as [[] w1] eqn:Hm; try done.
    intros [= <-]. apply mergeJSON_resolved in Hm as (E & T & r & w2 & w3 & _ & _ & Hr & Hl).
    exists (stringify r). split; [done|]. by eapply merge_no_bake.
  - unfold stream. rewrite Hex. simpl.
    destruct (lookup_path file (fs w)) as [[c|]|] eqn:Hf; try done.
    destruct (write_file dest c (fs w)) as [fs'|] eqn:Hw; [|done].
    intros [= <-]. exists c. split; [done|]. simpl. by eapply write_file_lookup.
Qed.

(** C2 as stated fails. The template manifest of scenario A, which has a
    [bake] key, written to a project that has no [package.json]: the file
    written is the template manifest, [bake] key included. *)
Lemma bake_survives_fresh_copy :
  let file := ["templates"; "node"; "package.json"] in
  let dest := ["project"; "package.json"] in
  let w := Scenario.boot (Scenario.disk Scenario.manifest_A ∅) in
  let w' := (json file dest w).2 in
  existsSync dest (fs w) = false ∧
  json file dest w = (Resolved, w') ∧
  lookup_path dest (fs w') = Some (File (Document Scenario.manifest_A)) ∧
  is_Some (props Scenario.manifest_A !! "bake").
Proof. vm_compute. split_and!; try reflexivity. by eexists. Qed.

(** C3. A regular template file whose destination exists is not copied:
    the per-file operation resolves, the file system is what it was, and
    the trace gains the warning, the read of the source (piped into a sink)
    and the two messages of the [then] callback, but no write. *)
Theorem existing_file_is_skipped file w :
  basename file ≠ "package.json" →
  isFile file (fs w) = true →
  existsSync (resolve (cwd w) (basename file)) (fs w) = true →
  ∃ w', expand_file file w = (Resolved, w') ∧
        fs w' = fs w ∧
        trace w' = (trace w ++
          [ Log warning (AlreadyExistsSkipping (basename file));
            Read file;
            Log info (Copied file (resolve (cwd w) (basename file)));
            Log debug (FinishedStreamingContent (basename file)) ])%list.
Proof.
  intros Hn Hf Hd. unfold expand_file, template, stream, isFile in *.
  apply String.eqb_neq in Hn. rewrite Hn, Hd. simpl.
  destruct (lookup_path file (fs w)) as [[c|]|]; try done. simpl.
  eexists. split; [done|]. split; [done|]. simpl.
  by rewrite basename_resolve, <-!(assoc_L (++)).
Qed.

End Conflict.

(** ** Hooks *)

Section Hooks.

Variable exec : Json → node → bool * node.

Implicit Types (w : world) (p : phase) (names : list string).

Lemma since_app w w' tr : trace w' = (trace w ++ tr)%list → since w w' = tr.
Proof. unfold since. intros ->. by rewrite drop_app_length. Qed.

Lemma invoke_chain p w :
  invoke exec p w = chain exec (hook_names p) (log debug (Invoke (phase_name p)) w).
Proof.
  unfold invoke, hook_names, chain, and_then.
  destruct (script exec _ _) as [[] w1]; try done.
  destruct (script exec _ w1) as [[] w2]; try done.
  by destruct (script exec _ w2) as [[] w3].
Qed.

Lemma script_effect name w :
  script exec name w =
    match configured w name with
    | None => (Resolved, w)
    | Some s =>
        (if (exec s (fs w)).1 then Resolved else Rejected (ScriptError s),
         set_fs (exec s (fs w)).2 (emit (Spawn name s) (log info (Script name) w)))
    end.
Proof. unfold script. destruct (configured w name); [|done]. by destruct (exec _ _). Qed.

Lemma configured_among_same names w w' :
  scripts w' = scripts w → configured_among names w' = configured_among names w.
Proof. unfold configured_among, configured. by intros ->. Qed.

Lemma chain_spec names w o w' :
  chain exec names w = (o, w') →
  ∃ tr, trace w' = (trace w ++ tr)%list ∧
        same_process w w' ∧ cache w' = cache w ∧
        Forall (script_event names) tr ∧
        spawns tr `prefix_of` configured_among names w ∧
        (o = Resolved → spawns tr = configured_among names w ∧
                        fs w' = run_in_sequence exec (configured_among names w) (fs w)) ∧
        (configured_among names w = [] → o = Resolved ∧ w' = w) ∧
        (∀ e, o ≠ Uncaught e).
Proof.
  revert w. induction names as [|name names IH]; intros w; simpl.
  { intros [= <- <-]. exists []. rewrite (right_id_L [] (++)).
    unfold same_process. by split_and!. }
  rewrite script_effect. unfold configured_among. cbn [omap list_omap].
  fold (configured_among names w).
  assert (∀ tr, Forall (script_event names) tr → Forall (script_event (name :: names)) tr)
    as Hweak.
  { intros tr Htr. eapply Forall_impl; [done|].
    intros [[] []|?? | | | | |]; simpl; set_solver. }
  destruct (configured w name) as [s|] eqn:Hs; cbn [fmap option_fmap option_map and_then].
  - destruct (exec s (fs w)) as [ok fs1] eqn:He. cbn [fst snd].
    destruct ok; cbn [and_then].
    + intros Hc. apply IH in Hc as (tr & Htr & (? & ? & Hsc) & ? & Hev & Hpre & Hres & _ & Hun).
      simpl in *. rewrite (configured_among_same names w) in * by done.
      exists (Log info (Script name) :: Spawn name s :: tr).
      unfold same_process, run_in_sequence. simpl. rewrite He.
      split_and!; try done.
      * by rewrite Htr, <-!(assoc_L (++)).
      * repeat constructor; [set_solver..|]. by apply Hweak.
      * by apply prefix_cons.
      * intros ->. split; [f_equal|]; by apply Hres.
    + intros [= <- <-]. exists [Log info (Script name); Spawn name s].
      unfold same_process. simpl.
      split_and!; try done.
      * by rewrite <-!(assoc_L (++)).
      * repeat constructor; set_solver.
      * apply prefix_cons, prefix_nil.
  - intros Hc. apply IH in Hc as (tr & Htr & ? & ? & Hev & Hpre & Hres & Hnone & Hun).
    exists tr. split_and!; try done. by apply Hweak.
Qed.

Lemma invoke_spec p w o w' :
  invoke exec p w = (o, w') →
  ∃ tr, trace w' = (trace w ++ Log debug (Invoke (phase_name p)) :: tr)%list ∧
        same_process w w' ∧ cache w' = cache w ∧
        Forall (script_event (hook_names p)) tr ∧
        spawns tr `prefix_of` configured_hooks p w ∧
        (o = Resolved → spawns tr = configured_hooks p w ∧
                        fs w' = run_in_sequence exec (configured_hooks p w) (fs w)) ∧
        (configured_hooks p w = [] → o = Resolved ∧ w' = log debug (Invoke (phase_name p)) w) ∧
        (∀ e, o ≠ Uncaught e).
Proof.
  rewrite invoke_chain. intros Hc.
  apply chain_spec in Hc as (tr & Htr & Hsame & ? & ? & ? & ? & ? & ?).
  unfold configured_hooks.
  rewrite (configured_among_same _ w (log debug _ w)) in * by done.
  exists tr. split_and!; try done.
  simpl in Htr. by rewrite Htr, <-(assoc_L (++)).
Qed.


End Hooks.

(** ** Traces of a run *)

Section Traces.

Implicit Types (P : event → Prop) (w : world) (file dest : path).

Lemma advances_refl P w : advances P w w.
Proof. split; [done|]. exists []. by rewrite (right_id_L [] (++)). Qed.

Lemma advances_trans P w1 w2 w3 :
  advances P w1 w2 → advances P w2 w3 → advances P w1 w3.
Proof.
  intros [(Ha & Hb & Hc) (t1 & Ht1 & Hf1)] [(Ha' & Hb' & Hc') (t2 & Ht2 & Hf2)].
  split; [unfold same_process; split_and!; congruence|].
  exists (t1 ++ t2)%list. split; [by rewrite Ht2, Ht1, (assoc_L (++))|].
  by apply Forall_app.
Qed.

Lemma advances_emit P e w w' : P e → advances P w w' → advances P w (emit e w').
Proof.
  intros He [(?&?&?) (tr & Htr & Hf)]. split; [done|].
  exists (tr ++ [e])%list. split; [simpl; by rewrite Htr, (assoc_L (++))|].
  apply Forall_app. split; [done|]. by constructor.
Qed.

Lemma advances_set_fs P fs' w w' : advances P w w' → advances P w (set_fs fs' w').
Proof. by intros [(?&?&?) ?]. Qed.

Lemma advances_set_cache P c w w' : advances P w w' → advances P w (set_cache c w').
Proof. by intros [(?&?&?) ?]. Qed.

(** Closes [advances expansion_event w w'] when [w'] is [w] after setters
    and expansion events, possibly from a world known to advance [w]. *)
Ltac trace_steps :=
  repeat first [ eassumption | apply advances_refl | apply advances_set_fs
               | apply advances_set_cache | apply advances_emit; [exact I|] ].

Lemma require_advances p w r w' :
  require p w = (r, w') → advances expansion_event w w'.
Proof.
  unfold require. intros Hr.
  destruct (cache w !! p); [simplify_eq; trace_steps|].
  destruct (lookup_path p (fs w)) as [[[]|]|]; simplify_eq; trace_steps.
Qed.

Lemma stream_advances file dest w o w' :
  stream file dest w = (o, w') → advances expansion_event w w'.
Proof.
  unfold stream, log. intros Hs.
  destruct (existsSync dest (fs w)); simpl in Hs;
    destruct (lookup_path file (fs w)) as [[c|]|]; simpl in Hs;
    try destruct (write_file dest c (fs w)); simplify_eq; trace_steps.
Qed.

Lemma mergeJSON_advances file dest w o w' :
  mergeJSON file dest w = (o, w') → advances expansion_event w w'.
Proof.
  unfold mergeJSON, log. intros Hm.
  destruct (require dest _) as [r1 w1] eqn:H1. apply require_advances in H1.
  assert (advances expansion_event w w1) as H1'
    by (eapply advances_trans; [|exact H1]; trace_steps).
  destruct r1 as [E|]; [|simplify_eq; trace_steps].
  destruct (require file w1) as [r2 w2] eqn:H2. apply require_advances in H2.
  assert (advances expansion_event w w2) as H2' by (by eapply advances_trans).
  destruct r2 as [T|]; [|simplify_eq; trace_steps].
  destruct (merge E T) as [r|]; [|simplify_eq; trace_steps].
  destruct (write_file dest _ _) as [fs'|]; simplify_eq; trace_steps.
Qed.

Lemma template_advances file dest w o w' :
  template file dest w = (o, w') → advances expansion_event w w'.
Proof.
  unfold template, json, and_then, log. intros Ht.
  destruct (String.eqb _ _); [|by eapply stream_advances].
  destruct (existsSync dest (fs w)); [|by eapply stream_advances].
  destruct (mergeJSON file dest w) as [[] w1] eqn:Hm;
    apply mergeJSON_advances in Hm; simplify_eq; trace_steps.
Qed.

Lemma expand_file_advances file w o w' :
  expand_file file w = (o, w') → advances expansion_event w w'.
Proof.
  unfold expand_file, and_then, log. intros He.
  destruct (template file _ w) as [[] w1] eqn:Ht;
    apply template_advances in Ht; simplify_eq; trace_steps.
Qed.

Lemma expand_files_advances files w os w' :
  expand_files files w = (os, w') → advances expansion_event w w'.
Proof.
  revert w os w'. induction files as [|file files IH]; intros w os w'; simpl.
  { intros [= <- <-]. apply advances_refl. }
  destruct (expand_file file w) as [o w1] eqn:H1.
  destruct (expand_files files w1) as [os' w2] eqn:H2.
  intros [= <- <-]. eapply advances_trans; [by eapply expand_file_advances|by eapply IH].
Qed.

Lemma expandTemplateDirectory_advances t w r w' :
  expandTemplateDirectory t w = (r, w') → advances expansion_event w w'.
Proof.
  unfold expandTemplateDirectory. intros He.
  destruct (negb _); [simplify_eq; apply advances_refl|].
  destruct (readdirSync _ _) as [names|]; [|simplify_eq; apply advances_refl].
  destruct (expand_files _ _) as [os w1] eqn:Hf. simplify_eq.
  eapply advances_trans; [|by eapply expand_files_advances]. trace_steps.
Qed.

(** C10. When the directory recorded in a template does not exist,
    [expandTemplateDirectory] returns the template itself, with no
    [promises], and leaves the world as it is: nothing is listed, read or
    written. *)
Theorem expand_missing_directory t w :
  existsSync (tpl_dir t) (fs w) = false →
  expandTemplateDirectory t w = (inl (t, None), w).
Proof. unfold expandTemplateDirectory. by intros ->. Qed.

End Traces.

(** ** The orchestrator *)

Section Run.

Variable exec : Json → node → bool * node.

Implicit Types (w : world) (p : phase) (name : option string) (args : list string).

Lemma invoke_advances p w o w' :
  invoke exec p w = (o, w') → advances (phase_event p) w w'.
Proof.
  intros (tr & Htr & Hsame & _ & Hev & _)%invoke_spec. split; [done|].
  eexists. split; [exact Htr|]. constructor; [by left|].
  eapply Forall_impl; [done|]. by right.
Qed.

Lemma find_template_None n ts :
  Forall (λ t, tpl_name t ≠ n) ts → find_template n ts = None.
Proof.
  unfold find_template. induction 1 as [|t ts Hn _ IH]; [done|]. simpl.
  by apply String.eqb_neq in Hn as ->.
Qed.

(** C9. When no discovered template carries the name, [run] reports
    [No "<name>" template] through [CLI.fail] and does nothing else: no
    hook is spawned, nothing is listed, read, copied or merged, and the
    file system and the module cache are what they were. *)
Theorem unknown_template_fails_untouched name args w :
  Forall (λ t, tpl_name t ≠ default "default" name) (templates w) →
  ∃ w', run exec name args w = (Exited, w') ∧
        fs w' = fs w ∧ cache w' = cache w ∧
        since w w' = [Fail (NoTemplate (default "default" name))].
Proof.
  intros Hn. unfold run. rewrite (find_template_None _ _ Hn).
  eexists. split; [done|]. split_and!; try done.
  by apply since_app.
Qed.

(** The trace of a run, stage by stage. *)
Lemma run_trace name args w c w' :
  run exec name args w = (c, w') →
  ∃ t0 ts te ti tf,
    since w w' = (t0 ++ ts ++ te ++ ti ++ tf)%list ∧
    Forall (λ e, ∃ n a, e = Log info (Running n a)) t0 ∧
    Forall (phase_event start) ts ∧
    Forall expansion_event te ∧
    Forall (phase_event install) ti ∧
    (tf = [] ∧ c ≠ Exited ∨ ∃ m, tf = [Fail m] ∧ c = Exited).
Proof.
  unfold run. set (n := default "default" name).
  destruct (find_template n (templates w)) as [t|].
  2:{ intros [= <- <-]. exists [], [], [], [], [Fail (NoTemplate n)].
      split_and!; try done; [by apply since_app | by right; eexists]. }
  set (w1 := set_scripts _ _).
  assert (trace w1 = (trace w ++ [Log info (Running n args)])%list) as H0 by done.
  destruct (invoke exec start w1) as [o1 w2] eqn:H1.
  apply invoke_advances in H1 as [_ (ts & Hts & Fs)].
  assert (∀ te ti tf, Forall expansion_event te → Forall (phase_event install) ti →
            (tf = [] ∧ c ≠ Exited ∨ ∃ m, tf = [Fail m] ∧ c = Exited) →
            trace w' = (trace w2 ++ te ++ ti ++ tf)%list →
            ∃ t0 ts te ti tf,
              since w w' = (t0 ++ ts ++ te ++ ti ++ tf)%list ∧
              Forall (λ e, ∃ n a, e = Log info (Running n a)) t0 ∧
              Forall (phase_event start) ts ∧
              Forall expansion_event te ∧
              Forall (phase_event install) ti ∧
              (tf = [] ∧ c ≠ Exited ∨ ∃ m, tf = [Fail m] ∧ c = Exited)) as Hfin.
  { intros te ti tf Fe Fi Ff Htr.
    exists [Log info (Running n args)], ts, te, ti, tf. split_and!; try done.
    - apply since_app. by rewrite Htr, Hts, H0, <-!(assoc_L (++)).
    - repeat constructor. by eexists _, _. }
  destruct o1 as [|e|e].
  2,3: intros [= <- <-]; apply (Hfin [] [] []); try done;
       [by left | by rewrite !(right_id_L [] (++))].
  destruct (expandTemplateDirectory t w2) as [r w3] eqn:H2.
  apply expandTemplateDirectory_advances in H2 as [_ (te & Hte & Fe)].
  destruct r as [[t' promises]|e].
  2:{ intros [= <- <-]. apply (Hfin te [] []); try done;
        [by left | by rewrite !(right_id_L [] (++))]. }
  unfold and_then. destruct (Promise_all promises) as [|e|e].
  - destruct (invoke exec install w3) as [o3 w4] eqn:H3.
    apply invoke_advances in H3 as [_ (ti & Hti & Fi)].
    destruct o3 as [|e|e]; intros [= <- <-].
    + apply (Hfin te ti []); try done; [by left|].
      by rewrite Hti, Hte, !(right_id_L [] (++)), <-!(assoc_L (++)).
    + apply (Hfin te ti [Fail (Caught e)]); try done; [by right; eexists|].
      simpl. by rewrite Hti, Hte, <-!(assoc_L (++)).
    + apply (Hfin te ti []); try done; [by left|].
      by rewrite Hti, Hte, !(right_id_L [] (++)), <-!(assoc_L (++)).
  - intros [= <- <-]. apply (Hfin te [] [Fail (Caught e)]); try done; [by right; eexists|].
    simpl. by rewrite Hte, <-!(assoc_L (++)).
  - intros [= <- <-]. apply (Hfin te [] []); try done; [by left|].
    by rewrite Hte, !(right_id_L [] (++)).
Qed.

(** In a list made of two blocks, an element that cannot be in the second
    stands before an element that cannot be in the first. *)
Lemma block_order {A} (P Q : A → Prop) (l1 l2 : list A) i j x y :
  Forall (λ a, ¬ Q a) l1 → Forall (λ a, ¬ P a) l2 →
  (l1 ++ l2)%list !! i = Some x → (l1 ++ l2)%list !! j = Some y →
  P x → Q y → i < j.
Proof.
  intros H1 H2 Hi Hj Px Qy.
  apply lookup_app_Some in Hi as [Hi|[_ Hi]].
  2:{ by destruct (proj1 (Forall_lookup _ _) H2 _ _ Hi). }
  apply lookup_app_Some in Hj as [Hj|[Hj _]].
  { by destruct (proj1 (Forall_lookup _ _) H1 _ _ Hj). }
  apply lookup_lt_Some in Hi. lia.
Qed.

Lemma phase_not_expansion p e : phase_event p e → ¬ expansion_event e.
Proof.
  intros [->|He]; [exact id|].
  destruct e as [[] []| | | | | |]; simpl in *; tauto.
Qed.

Lemma start_not_install e : phase_event start e → ¬ phase_event install e.
Proof.
  intros [->|H1] [H2|H2].
  - discriminate H2.
  - exact H2.
  - subst e. exact H1.
  - destruct e as [[] []| | | | | |]; simpl in *; try tauto;
      set_unfold; naive_solver.
Qed.

Lemma report_other e :
  report_event e → ¬ expansion_event e ∧ ∀ p, ¬ phase_event p e.
Proof.
  destruct e as [[] []| | | | | |]; simpl; try tauto; intros _;
    (split; [exact id|]); intros p [H|H]; first [discriminate H | exact H].
Qed.

(** C6. In the trace of a run, every event of the [start] phase (its
    announcement and the events of [prestart], [start], [poststart]) stands
    before every event of file expansion, and every event of file expansion
    (the listing, every read and write, every message of a per-file
    operation, its completion included) stands before every event of the
    [install] phase. *)
Theorem phases_are_separated name args w i j e1 e2 :
  let w' := (run exec name args w).2 in
  since w w' !! i = Some e1 →
  since w w' !! j = Some e2 →
  (phase_event start e1 → expansion_event e2 → i < j) ∧
  (expansion_event e1 → phase_event install e2 → i < j).
Proof.
  destruct (run exec name args w) as [c w'] eqn:Hrun. simpl.
  apply run_trace in Hrun as (t0 & ts & te & ti & tf & -> & F0 & Fs & Fe & Fi & Ff).
  assert (Forall report_event t0) as R0.
  { eapply Forall_impl; [done|]. by intros e (n & a & ->). }
  assert (Forall report_event tf) as Rf.
  { destruct Ff as [[-> _]|(m & -> & _)]; by repeat constructor. }
  assert (∀ (P Q : event → Prop) l, (∀ e, P e → Q e) → Forall P l → Forall Q l)
    as weaken by (intros P Q l HPQ Hl; by eapply Forall_impl).
  intros Hi Hj. split; intros H1 H2.
  - rewrite (assoc_L (++) t0 ts) in Hi, Hj.
    apply (block_order (phase_event start) expansion_event
             (t0 ++ ts) (te ++ ti ++ tf) i j e1 e2); try done.
    + apply Forall_app. split.
      * apply (weaken report_event); [|done]. by intros e [? _]%report_other.
      * apply (weaken (phase_event start)); [|done]. apply phase_not_expansion.
    + rewrite !Forall_app. split_and!.
      * apply (weaken expansion_event); [|done].
        intros e ??. by eapply phase_not_expansion.
      * apply (weaken (phase_event install)); [|done].
        intros e ??. by eapply start_not_install.
      * apply (weaken report_event); [|done]. by intros e [_ ?]%report_other.
  - rewrite (assoc_L (++) t0 ts), (assoc_L (++) _ te) in Hi, Hj.
    apply (block_order expansion_event (phase_event install)
             ((t0 ++ ts) ++ te) (ti ++ tf) i j e1 e2); try done.
    + rewrite !Forall_app. split_and!.
      * apply (weaken report_event); [|done]. by intros e [_ ?]%report_other.
      * apply (weaken (phase_event start)); [|done]. apply start_not_install.
      * apply (weaken expansion_event); [|done].
        intros e ??. by eapply phase_not_expansion.
    + rewrite !Forall_app. split_and!.
      * apply (weaken (phase_event install)); [|done]. apply phase_not_expansion.
      * apply (weaken report_event); [|done]. by intros e [? _]%report_other.
Qed.

Lemma reports_nil (P : event → Prop) tr :
  (∀ e, P e → ∀ m, e ≠ Fail m) → Forall P tr → reports tr = [].
Proof.
  intros HP. induction 1 as [|e tr He _ IH]; [done|].
  unfold reports in *. cbn [omap list_omap]. rewrite IH.
  destruct e; try done. by destruct (HP _ He m).
Qed.

Lemma reports_app tr1 tr2 : reports (tr1 ++ tr2) = (reports tr1 ++ reports tr2)%list.
Proof. apply omap_app. Qed.

(** X1. [CLI.fail] is called at most once in a run, and it is called exactly
    when the run ends through it; a run that ends in a rejected promise has
    reported nothing. *)
Theorem run_reports name args w :
  let '(c, w') := run exec name args w in
  match c with
  | Exited => ∃ m, reports (since w w') = [m]
  | _ => reports (since w w') = []
  end.
Proof.
  destruct (run exec name args w) as [c w'] eqn:Hrun.
  apply run_trace in Hrun as (t0 & ts & te & ti & tf & -> & F0 & Fs & Fe & Fi & Ff).
  assert (reports t0 = []) as Ht0.
  { eapply reports_nil; [|exact F0]. by intros e (n & a & ->) m. }
  assert (∀ p tr, Forall (phase_event p) tr → reports tr = []) as Hphase.
  { intros p tr. apply reports_nil. intros e [->|He] m; [done|].
    destruct e as [[] []| | | | | |]; simpl in He; done. }
  assert (reports te = []) as Hte.
  { eapply reports_nil; [|exact Fe]. intros e He m. destruct e; simpl in He; done. }
  rewrite !reports_app, Ht0, (Hphase start ts Fs), (Hphase install ti Fi), Hte. simpl.
  destruct Ff as [[-> Hc]|(m & -> & ->)]; [by destruct c|]. by exists m.
Qed.

End Run.

(** ** The registry *)

Section Registry.

Variable exec : Json → node → bool * node.

Implicit Types (w : world) (dir r : path) (n : string) (ts : list loaded_template).

Lemma lookup_path_app (p q : path) (nd : node) :
  lookup_path (p ++ q) nd = lookup_path p nd ≫= lookup_path q.
Proof.
  revert nd. induction p as [|name p IH]; intros nd; [done|].
  simpl. destruct nd as [|entries]; [done|].
  destruct (entries !! name); simpl; [apply IH|done].
Qed.

(** A subdirectory is listed, and only subdirectories are. *)
Lemma subdirectories_spec dir fs d :
  d ∈ subdirectories dir fs ↔ ∃ n, d = resolve dir n ∧ isDirectory d fs = true.
Proof.
  unfold subdirectories, readdirSync. split.
  - destruct (lookup_path dir fs) as [[|entries]|]; try by intros ?%elem_of_nil.
    intros [Hin Hd]%list_elem_of_In%filter_In.
    apply in_map_iff in Hin as (n & <- & _). by exists n.
  - intros (n & -> & Hd). pose proof Hd as Hd'. unfold isDirectory, resolve in Hd.
    rewrite lookup_path_app in Hd.
    destruct (lookup_path dir fs) as [[|entries]|]; try done. simpl in Hd.
    destruct (entries !! n) as [child|] eqn:Hn; [|done].
    apply list_elem_of_In, filter_In. split; [|done].
    apply in_map, list_elem_of_In, list_elem_of_fmap.
    exists (n, child). split; [done|]. by apply elem_of_map_to_list.
Qed.

Lemma loadTemplatesFrom_spec dir w ds w' :
  loadTemplatesFrom dir w = (inl ds, w') →
  ds = subdirectories dir (fs w) ∧ fs w' = fs w.
Proof.
  unfold loadTemplatesFrom, subdirectories. simpl.
  destruct (readdirSync dir (fs w)); by intros [= <- <-].
Qed.

Lemma load_dirs_spec dirs w ds w' :
  load_dirs dirs w = (inl ds, w') →
  ds = flat_map (λ dir, subdirectories dir (fs w)) dirs ∧ fs w' = fs w.
Proof.
  revert w ds w'. induction dirs as [|dir dirs IH]; intros w ds w'; simpl.
  { by intros [= <- <-]. }
  destruct (loadTemplatesFrom dir w) as [[ds1|] w1] eqn:H1; [|done].
  apply loadTemplatesFrom_spec in H1 as [-> Hfs1].
  destruct (load_dirs dirs w1) as [[ds2|] w2] eqn:H2; [|done].
  apply IH in H2 as [-> Hfs2]. intros [= <- <-].
  rewrite Hfs1 in *. done.
Qed.

Lemma load_manifests_spec dirs w ts w' :
  load_manifests dirs w = (inl ts, w') →
  map tpl_dir ts = dirs ∧ Forall (λ t, tpl_name t = basename (tpl_dir t)) ts.
Proof.
  revert w ts w'. induction dirs as [|dir dirs IH]; intros w ts w'; simpl.
  { by intros [= <- <-]. }
  destruct (if existsSync _ _ then _ else _) as [[j|] w1]; [|done].
  destruct (load_manifests dirs w1) as [[ts'|] w2] eqn:H2; [|done].
  apply IH in H2 as [<- Hn]. intros [= <- <-]. split; [done|]. by constructor.
Qed.

Lemma find_template_app n ts1 ts2 :
  find_template n (ts1 ++ ts2) =
    match find_template n ts1 with
    | Some t => Some t
    | None => find_template n ts2
    end.
Proof.
  unfold find_template. induction ts1 as [|t ts1 IH]; [done|]. simpl.
  by destruct (String.eqb _ _).
Qed.

Lemma existsSync_parent r n fs :
  isDirectory (resolve r n) fs = true → existsSync r fs = true.
Proof.
  unfold isDirectory, existsSync, resolve. rewrite lookup_path_app.
  by destruct (lookup_path r fs).
Qed.

(** No template loaded from roots without a subdirectory [n] is called [n]. *)
Lemma no_match_before n fs (before : list path) ts :
  Forall (λ r', isDirectory (resolve r' n) fs = false) before →
  Forall (λ t, tpl_name t = basename (tpl_dir t)) ts →
  map tpl_dir ts = flat_map (λ dir, subdirectories dir fs) before →
  find_template n ts = None.
Proof.
  intros Hb Hn Hd. apply find_template_None, Forall_forall. intros t Ht Hname.
  assert (In (tpl_dir t) (map tpl_dir ts)) as Hin
    by (by apply in_map, list_elem_of_In).
  rewrite Hd in Hin. apply in_flat_map in Hin as (r' & Hr' & Hin).
  apply list_elem_of_In, subdirectories_spec in Hin as (n' & Hdir & Hisdir).
  rewrite Forall_forall in Hn. specialize (Hn t Ht).
  rewrite Hdir, basename_resolve in Hn. subst n'.
  rewrite Forall_forall in Hb. apply list_elem_of_In in Hr'.
  specialize (Hb r' Hr'). simpl in Hb. congruence.
Qed.

(** C5. The search roots are scanned in order, and a name resolves to the
    template in the first root that has a subdirectory of that name,
    whatever the later roots hold; when [run] is given no name it looks for
    [default]. *)
Theorem first_root_wins roots before r after n w ts w' :
  roots = (before ++ r :: after)%list →
  Forall (λ r', isDirectory (resolve r' n) (fs w) = false) before →
  isDirectory (resolve r n) (fs w) = true →
  loadTemplates roots w = (inl ts, w') →
  (∃ t, find_template n ts = Some t ∧ tpl_dir t = resolve r n ∧ tpl_name t = n) ∧
  (∀ args w, run exec None args w = run exec (Some "default") args w).
Proof.
  intros -> Hbefore Hr Hload. split; [|done].
  unfold loadTemplates in Hload. simpl in Hload.
  destruct (load_dirs _ _) as [[ds|] w1] eqn:Hd; [|done].
  apply load_dirs_spec in Hd as [-> _]. simpl in Hload.
  apply load_manifests_spec in Hload as [Hdirs Hnames].
  rewrite List.filter_app in Hdirs. simpl in Hdirs.
  rewrite (existsSync_parent _ _ _ Hr), flat_map_app in Hdirs. simpl in Hdirs.
  apply map_eq_app in Hdirs as (ts0 & ts' & -> & H0 & Hdirs).
  apply map_eq_app in Hdirs as (ts1 & ts2 & -> & H1 & _).
  apply Forall_app in Hnames as [Hn0 [Hn1 _]%Forall_app].
  rewrite !find_template_app.
  rewrite (no_match_before n (fs w) (List.filter (λ d, existsSync d (fs w)) before) ts0);
    try done.
  2:{ apply Forall_forall. intros r' [Hin _]%list_elem_of_In%filter_In.
      rewrite Forall_forall in Hbefore. by apply Hbefore, list_elem_of_In. }
  destruct (find_template n ts1) as [t|] eqn:Hfind.
  - exists t. apply find_some in Hfind as [Hin Heq].
    apply String.eqb_eq in Heq. split_and!; try done.
    assert (In (tpl_dir t) (map tpl_dir ts1)) as Hd by (by apply in_map).
    rewrite H1 in Hd. apply list_elem_of_In, subdirectories_spec in Hd as (n' & Hdir & _).
    rewrite Forall_forall in Hn1. specialize (Hn1 t (proj2 (list_elem_of_In _ _) Hin)).
    rewrite Hdir, basename_resolve in Hn1. congruence.
  - exfalso.
    assert (resolve r n ∈ subdirectories r (fs w)) as Hsub
      by (apply subdirectories_spec; by exists n).
    rewrite <-H1 in Hsub. apply list_elem_of_In, in_map_iff in Hsub as (t & Hdir & Hin).
    apply (find_none _ _ Hfind) in Hin as Hne. apply String.eqb_neq in Hne.
    rewrite Forall_forall in Hn1. specialize (Hn1 t (proj2 (list_elem_of_In _ _) Hin)).
    rewrite Hdir, basename_resolve in Hn1. done.
Qed.

End Registry.

(** ** The shape of the merged manifest *)

Section MergeShape.

Implicit Types (E T : Json) (r : object) (k : string).

(** X4. The merge throws exactly when the template manifest is [null], or
    the destination manifest is [null] and the template has a truthy
    [dependencies] or [devDependencies]. *)
Theorem merge_fails_iff E T :
  merge E T = None ↔
  T = JNull ∨
  (E = JNull ∧ (truthy_v (props T !! "devDependencies") = true ∨
                truthy_v (props T !! "dependencies") = true)).
Proof.
  assert (T = JNull ∨ T ≠ JNull) as [->|HT] by (destruct T; naive_solver);
    [by split; [left|]|].
  assert (E = JNull ∨ E ≠ JNull) as [->|HE] by (destruct E; naive_solver);
    unfold merge.
  - rewrite !(get_not_null T) by done. simpl. destruct (truthy_v (props T !! "devDependencies")); simpl; [naive_solver|].
    destruct (truthy_v (props T !! "dependencies")); simpl; naive_solver.
  - rewrite !(get_not_null T), !(get_not_null E) by done. simpl.
    destruct (truthy_v (props T !! "devDependencies")),
             (truthy_v (props T !! "dependencies")); simpl; naive_solver.
Qed.


End MergeShape.

(** ** What expansion writes, and what it leaves alone *)

Section Frame.

Implicit Types (p q file dest : path) (w : world) (n : node).

Lemma require_keeps_fs p w r w' : require p w = (r, w') → fs w' = fs w.
Proof.
  unfold require. intros Hr.
  destruct (cache w !! p); [by simplify_eq|].
  destruct (lookup_path p (fs w)) as [[[]|]|]; by simplify_eq.
Qed.

(** A successful write leaves every path that does not lead to the written
    one as it was. *)
Lemma write_file_frame p c n n' q :
  write_file p c n = Some n' →
  ¬ q `prefix_of` p →
  lookup_path q n' = lookup_path q n.
Proof.
  revert n n' q. induction p as [|name p IH]; intros n n' q Hw Hq; [by destruct n|].
  destruct n as [|entries]; [done|].
  destruct q as [|a q]; [destruct Hq; apply prefix_nil|].
  destruct p as [|name' p].
  - simpl in Hw.
    destruct (decide (a = name)) as [->|Hne].
    + assert (q ≠ []) as Hq' by (intros ->; by apply Hq).
      destruct q as [|b q]; [done|].
      destruct (entries !! name) as [[|]|] eqn:He; simplify_eq; simpl;
        rewrite lookup_insert_eq, ?He; done.
    + destruct (entries !! name) as [[|]|] eqn:He; simplify_eq; simpl;
        by rewrite lookup_insert_ne.
  - rewrite write_file_cons in Hw.
    destruct (entries !! name) as [child|] eqn:He; [|done]. cbn [mbind option_bind] in Hw.
    destruct (write_file (name' :: p) c child) as [child'|] eqn:Hc; [|done].
    injection Hw as <-. cbn [lookup_path].
    destruct (decide (a = name)) as [->|Hne].
    + rewrite lookup_insert_eq, He. simpl. apply (IH child); [done|].
      intros Hpre. apply Hq. by apply prefix_cons.
    + by rewrite lookup_insert_ne.
Qed.

(** A write succeeds only through directories. *)
Lemma write_file_through p c n n' q r :
  write_file p c n = Some n' → p = (q ++ r)%list → r ≠ [] →
  ∃ entries, lookup_path q n = Some (Dir entries).
Proof.
  revert n n' q. induction p as [|name p IH]; intros n n' q Hw Hp Hr.
  { by destruct n. }
  destruct n as [|entries]; [done|].
  destruct q as [|a q]; [by eexists|].
  simpl in Hp. injection Hp as -> ->.
  destruct (q ++ r)%list as [|name' p'] eqn:Hqr.
  { by destruct q, r. }
  rewrite write_file_cons in Hw.
  destruct (entries !! a) as [child|] eqn:He; [|done]. cbn [mbind option_bind] in Hw.
  destruct (write_file (name' :: p') c child) as [child'|] eqn:Hc; [|done].
  simpl. rewrite He. simpl. by eapply IH.
Qed.

(** An existing regular file other than the written one keeps its
    content. *)
Lemma write_file_other_file p c n n' q c0 :
  write_file p c n = Some n' →
  lookup_path q n = Some (File c0) → q ≠ p →
  lookup_path q n' = Some (File c0).
Proof.
  intros Hw Hq Hne. rewrite (write_file_frame p c n n' q Hw); [done|].
  intros [r ->]. destruct r as [|x r]; [by rewrite (right_id_L [] (++)) in Hne|].
  destruct (write_file_through _ _ _ _ q (x :: r) Hw eq_refl) as [e He]; [done|].
  congruence.
Qed.

(** What one per-file operation does to the file system, by the state of
    its destination. *)
Lemma template_effect file dest w o w' :
  template file dest w = (o, w') →
  cwd w' = cwd w ∧
  if existsSync dest (fs w)
  then if String.eqb (basename file) "package.json"
       then (o ≠ Resolved ∧ fs w' = fs w) ∨
            (o = Resolved ∧ ∃ c, write_file dest c (fs w) = Some (fs w'))
       else fs w' = fs w
  else (o ≠ Resolved ∧ fs w' = fs w) ∨
       (o = Resolved ∧ ∃ c, lookup_path file (fs w) = Some (File c) ∧
                            write_file dest c (fs w) = Some (fs w')).
Proof.
  intros Ht. split.
  { apply template_advances in Ht as [(? & _) _]. done. }
  assert (∀ o w', stream file dest w = (o, w') →
            if existsSync dest (fs w) then fs w' = fs w
            else (o ≠ Resolved ∧ fs w' = fs w) ∨
                 (o = Resolved ∧ ∃ c, lookup_path file (fs w) = Some (File c) ∧
                                      write_file dest c (fs w) = Some (fs w'))) as Hstream.
  { clear. intros o w'. unfold stream.
    destruct (existsSync dest (fs w)); simpl;
      destruct (lookup_path file (fs w)) as [[c|]|]; simpl;
      try (intros [= <- <-]; by eauto).
    destruct (write_file dest c (fs w)) as [fs'|] eqn:Hw; intros [= <- <-]; [|by left].
    right. split; [done|]. by exists c. }
  specialize (Hstream o w'). revert Ht Hstream. unfold template, json.
  destruct (existsSync dest (fs w)) eqn:Hex.
  - destruct (String.eqb _ _); [|by intros ? Hs; apply Hs].
    intros Ht _. unfold and_then, mergeJSON in Ht.
    destruct (require dest _) as [r1 w1] eqn:H1.
    apply require_keeps_fs in H1 as F1. simpl in F1.
    destruct r1 as [E|]; [|simplify_eq; left; by split].
    destruct (require file w1) as [r2 w2] eqn:H2.
    apply require_keeps_fs in H2 as F2. rewrite F1 in F2.
    destruct r2 as [T|]; [|simplify_eq; left; by split].
    destruct (merge E T) as [r|]; [|simplify_eq; left; by split].
    simpl in Ht. rewrite F2 in Ht.
    destruct (write_file dest _ (fs w)) as [fs'|] eqn:Hw; simplify_eq.
    + right. split; [done|]. by eexists.
    + left. by split.
  - intros Ht Hs. apply Hs. by destruct (String.eqb _ _).
Qed.

Lemma expand_file_effect file w o w' :
  expand_file file w = (o, w') →
  let dest := resolve (cwd w) (basename file) in
  cwd w' = cwd w ∧
  if existsSync dest (fs w)
  then if String.eqb (basename file) "package.json"
       then (o ≠ Resolved ∧ fs w' = fs w) ∨
            (o = Resolved ∧ ∃ c, write_file dest c (fs w) = Some (fs w'))
       else fs w' = fs w
  else (o ≠ Resolved ∧ fs w' = fs w) ∨
       (o = Resolved ∧ ∃ c, lookup_path file (fs w) = Some (File c) ∧
                            write_file dest c (fs w) = Some (fs w')).
Proof.
  intros He dest. unfold expand_file, and_then in He. fold dest in He.
  destruct (template file dest w) as [o1 w1] eqn:Ht.
  apply template_effect in Ht.
  destruct o1; simplify_eq; exact Ht.
Qed.


(** One operation keeps every regular file other than its destination, and
    its destination too unless it is the manifest to merge. *)
Lemma expand_file_keeps file w o w' q c :
  expand_file file w = (o, w') →
  lookup_path q (fs w) = Some (File c) →
  (basename file = "package.json" → q ≠ resolve (cwd w) "package.json") →
  lookup_path q (fs w') = Some (File c).
Proof.
  intros He Hq Hne. apply expand_file_effect in He as [_ He].
  destruct (existsSync _ _) eqn:Hex.
  - destruct (String.eqb _ _) eqn:Hb; [|by rewrite He].
    apply String.eqb_eq in Hb.
    destruct He as [[_ ->]|[_ [c' Hw]]]; [done|].
    eapply write_file_other_file; [done..|]. rewrite Hb. by apply Hne.
  - destruct He as [[_ ->]|[_ (c' & _ & Hw)]]; [done|].
    eapply write_file_other_file; [done..|].
    intros ->. unfold existsSync in Hex. by rewrite Hq in Hex.
Qed.

(** One operation leaves alone every path that is not its destination or
    on the way to it. *)
Lemma expand_file_frame file w o w' q :
  expand_file file w = (o, w') →
  ¬ q `prefix_of` resolve (cwd w) (basename file) →
  lookup_path q (fs w') = lookup_path q (fs w).
Proof.
  intros He Hq. apply expand_file_effect in He as [_ He].
  destruct (existsSync _ _); [destruct (String.eqb _ _)|];
    first [ by rewrite He
          | destruct He as [[_ ->]|[_ (c & Hw)]]; [done|];
            first [ by eapply write_file_frame
                  | destruct Hw as [_ Hw]; by eapply write_file_frame ] ].
Qed.

Lemma expand_files_cwd files w os w' :
  expand_files files w = (os, w') → cwd w' = cwd w.
Proof. by intros [(? & _) _]%expand_files_advances. Qed.

Lemma expand_file_cwd file w o w' :
  expand_file file w = (o, w') → cwd w' = cwd w.
Proof. by intros [(? & _) _]%expand_file_advances. Qed.

Lemma expand_files_keeps files w os w' q c :
  expand_files files w = (os, w') →
  lookup_path q (fs w) = Some (File c) →
  q ≠ resolve (cwd w) "package.json" →
  lookup_path q (fs w') = Some (File c).
Proof.
  revert w os w'. induction files as [|file files IH]; intros w os w'; simpl.
  { by intros [= <- <-]. }
  destruct (expand_file file w) as [o w1] eqn:H1.
  destruct (expand_files files w1) as [os' w2] eqn:H2.
  intros [= <- <-] Hq Hne. eapply IH; [done| |].
  - by eapply expand_file_keeps.
  - by rewrite (expand_file_cwd _ _ _ _ H1).
Qed.

Lemma expand_files_frame files w os w' q :
  expand_files files w = (os, w') →
  (∀ f, f ∈ files → ¬ q `prefix_of` resolve (cwd w) (basename f)) →
  lookup_path q (fs w') = lookup_path q (fs w).
Proof.
  revert w os w'. induction files as [|file files IH]; intros w os w'; simpl.
  { by intros [= <- <-]. }
  destruct (expand_file file w) as [o w1] eqn:H1.
  destruct (expand_files files w1) as [os' w2] eqn:H2.
  intros [= <- <-] Hq.
  rewrite (IH _ _ _ H2), (expand_file_frame _ _ _ _ _ H1); try done.
  - apply Hq. by left.
  - intros f Hf. rewrite (expand_file_cwd _ _ _ _ H1). apply Hq. by right.
Qed.

(** The listed files of a directory are its regular files. *)
Lemma listed_files_sound dir fs0 names f :
  f ∈ List.filter (λ f, isFile f fs0) (map (resolve dir) names) →
  ∃ name, f = resolve dir name ∧ isFile f fs0 = true.
Proof.
  intros [Hin Hf]%list_elem_of_In%filter_In.
  apply in_map_iff in Hin as (name & <- & _). by exists name.
Qed.

Lemma expandTemplateDirectory_frame t w r w' q :
  expandTemplateDirectory t w = (r, w') →
  (∀ name : string, isFile (resolve (tpl_dir t) name) (fs w) = true →
                    ¬ q `prefix_of` resolve (cwd w) name) →
  lookup_path q (fs w') = lookup_path q (fs w).
Proof.
  unfold expandTemplateDirectory. intros He Hq.
  destruct (negb _); [by simplify_eq|].
  destruct (readdirSync _ _) as [names|]; [|by simplify_eq].
  destruct (expand_files _ _) as [os w1] eqn:Hf. simplify_eq.
  apply (expand_files_frame _ _ _ _ _ Hf).
  intros f (name & -> & Hfile)%listed_files_sound.
  rewrite basename_resolve. by apply Hq.
Qed.

(** X7. Expansion never changes an existing regular file, the project's
    [package.json] apart. *)
Theorem expansion_keeps_existing_files t w r w' q c :
  expandTemplateDirectory t w = (r, w') →
  lookup_path q (fs w) = Some (File c) →
  q ≠ resolve (cwd w) "package.json" →
  lookup_path q (fs w') = Some (File c).
Proof.
  unfold expandTemplateDirectory. intros He Hq Hne.
  destruct (negb _); [by simplify_eq|].
  destruct (readdirSync _ _) as [names|]; [|by simplify_eq].
  destruct (expand_files _ _) as [os w1] eqn:Hf. simplify_eq.
  by eapply expand_files_keeps.
Qed.

(** X8. Expansion changes nothing but the entries of the working directory
    that are named like a regular file of the template: every path that is
    neither such an entry nor on the way to it resolves as before. *)
Theorem expansion_touches_only_template_names t w r w' q :
  expandTemplateDirectory t w = (r, w') →
  (∀ name : string, isFile (resolve (tpl_dir t) name) (fs w) = true →
                    ¬ q `prefix_of` resolve (cwd w) name) →
  lookup_path q (fs w') = lookup_path q (fs w).
Proof. apply expandTemplateDirectory_frame. Qed.

Lemma resolve_inj dir a b : resolve dir a = resolve dir b → a = b.
Proof. unfold resolve. by intros [_ [= ->]]%app_inj_tail. Qed.

Lemma sibling_not_prefix dir a b :
  a ≠ b → ¬ resolve dir a `prefix_of` resolve dir b.
Proof.
  intros Hab [r Hr]. unfold resolve in Hr.
  assert (length r = 0) as ->%nil_length_inv.
  { apply (f_equal length) in Hr. rewrite !length_app in Hr. simpl in Hr. lia. }
  rewrite (right_id_L [] (++)) in Hr. by apply app_inj_tail in Hr as [_ [= ->]].
Qed.

Lemma Promise_all_Resolved ps :
  Promise_all (Some ps) = Resolved → Forall (λ o, o = Resolved) ps.
Proof.
  unfold Promise_all. induction ps as [|o ps IH]; [done|]. simpl.
  destruct o; simpl; try done. intros H. constructor; [done|]. by apply IH.
Qed.

Lemma NoDup_map_filter {A B} (f : A → B) (P : A → bool) (l : list A) :
  NoDup (map f l) → NoDup (map f (List.filter P l)).
Proof.
  induction l as [|x l IH]; [done|]. simpl. intros [Hx Hl]%NoDup_cons.
  destruct (P x); [|by apply IH]. simpl. apply NoDup_cons. split; [|by apply IH].
  intros Hin. apply Hx. apply list_elem_of_In, in_map_iff in Hin as (y & <- & Hy).
  apply filter_In in Hy as [Hy _]. by apply list_elem_of_In, in_map.
Qed.

(** The listed files of a directory have distinct names. *)
Lemma listed_files_NoDup dir fs0 names :
  readdirSync dir fs0 = Some names →
  NoDup (map basename (List.filter (λ f, isFile f fs0) (map (resolve dir) names))).
Proof.
  unfold readdirSync. intros Hr. apply NoDup_map_filter.
  rewrite map_map. erewrite map_ext; [|intros; apply basename_resolve].
  rewrite map_id.
  destruct (lookup_path dir fs0) as [[|entries]|]; simplify_eq.
  apply NoDup_fst_map_to_list.
Qed.

(** A regular file of a directory is among its listed files. *)
Lemma listed_files_complete dir fs0 names name c :
  readdirSync dir fs0 = Some names →
  lookup_path (resolve dir name) fs0 = Some (File c) →
  resolve dir name ∈ List.filter (λ f, isFile f fs0) (map (resolve dir) names).
Proof.
  unfold readdirSync. intros Hr Hf.
  apply list_elem_of_In, filter_In. split; [|unfold isFile; by rewrite Hf].
  unfold resolve in Hf. rewrite lookup_path_app in Hf.
  destruct (lookup_path dir fs0) as [[|entries]|]; simplify_eq. simpl in Hf.
  destruct (entries !! name) as [child|] eqn:Hn; [|done].
  apply in_map, list_elem_of_In, list_elem_of_fmap.
  exists (name, child). split; [done|]. by apply elem_of_map_to_list.
Qed.

Lemma expand_files_copies files w os w' file c :
  expand_files files w = (os, w') →
  Forall (λ o, o = Resolved) os →
  NoDup (map basename files) →
  file ∈ files →
  lookup_path file (fs w) = Some (File c) →
  existsSync (resolve (cwd w) (basename file)) (fs w) = false →
  lookup_path (resolve (cwd w) (basename file)) (fs w') = Some (File c).
Proof.
  revert w os w'. induction files as [|f files IH]; intros w os w'; simpl.
  { by intros _ _ _ ?%elem_of_nil. }
  destruct (expand_file f w) as [o w1] eqn:H1.
  destruct (expand_files files w1) as [os' w2] eqn:H2.
  intros [= <- <-] [-> Hos]%Forall_cons [Hf Hnd]%NoDup_cons Hin Hc Hd.
  pose proof (expand_file_cwd _ _ _ _ H1) as Hcwd.
  apply elem_of_cons in Hin as [->|Hin].
  - pose proof (expand_file_effect _ _ _ _ H1) as [_ He]. rewrite Hd in He.
    destruct He as [[? _]|[_ (c' & Hc' & Hw)]]; [done|].
    assert (c' = c) as -> by congruence.
    apply write_file_lookup in Hw.
    assert (lookup_path (resolve (cwd w) (basename f)) (fs w2) = Some (File c)) as Hk;
      [|done].
    clear H1 IH Hd Hc Hc'. rewrite <-Hcwd in *. clear Hcwd.
    revert w1 os' w2 H2 Hos Hw. induction files as [|g files IH]; intros w1 os' w2; simpl.
    { by intros [= <- <-]. }
    destruct (expand_file g w1) as [o1 w3] eqn:H3.
    destruct (expand_files files w3) as [os3 w4] eqn:H4.
    intros [= <- <-] [-> Hos]%Forall_cons Hw.
    apply not_elem_of_cons in Hf as [Hfg Hf]. apply NoDup_cons in Hnd as [_ Hnd].
    pose proof (expand_file_cwd _ _ _ _ H3) as Hcwd.
    rewrite <-Hcwd. eapply IH; try done. rewrite Hcwd.
    pose proof (expand_file_effect _ _ _ _ H3) as [_ He].
    assert (resolve (cwd w1) (basename f) ≠ resolve (cwd w1) (basename g)) as Hne
      by (by intros ?%resolve_inj).
    destruct (existsSync _ _); [destruct (String.eqb _ _)|].
    + destruct He as [[? _]|[_ (c' & Hw')]]; [done|]. by eapply write_file_other_file.
    + by rewrite He.
    + destruct He as [[? _]|[_ (c' & _ & Hw')]]; [done|]. by eapply write_file_other_file.
  - assert (basename file ≠ basename f) as Hne.
    { intros Heq. apply Hf. rewrite <-Heq. by apply list_elem_of_fmap_2. }
    rewrite <-Hcwd. eapply IH; try done.
    + eapply expand_file_keeps; [done..|].
      intros Hb Heq. apply Hne. by rewrite Heq, basename_resolve.
    + rewrite Hcwd. unfold existsSync in *.
      rewrite (expand_file_frame _ _ _ _ _ H1); [done|].
      by apply sibling_not_prefix.
Qed.

(** X9. When every per-file operation resolves, every regular file of the
    template whose name is new in the working directory is there
    afterwards, with the content it has in the template. *)
Theorem expansion_copies_new_files t w t' ps w' name c :
  expandTemplateDirectory t w = (inl (t', Some ps), w') →
  Promise_all (Some ps) = Resolved →
  lookup_path (resolve (tpl_dir t) name) (fs w) = Some (File c) →
  existsSync (resolve (cwd w) name) (fs w) = false →
  lookup_path (resolve (cwd w) name) (fs w') = Some (File c).
Proof.
  unfold expandTemplateDirectory. intros He Hall Hf Hd.
  destruct (negb _); [by simplify_eq|].
  destruct (readdirSync _ _) as [names|] eqn:Hr; [|by simplify_eq].
  destruct (expand_files _ _) as [os w1] eqn:Hfs. simplify_eq.
  erewrite <-(basename_resolve _ name).
  apply (expand_files_copies _ _ _ _ _ c Hfs).
  - by apply Promise_all_Resolved.
  - by apply (listed_files_NoDup _ (fs w)).
  - by eapply (listed_files_complete _ (fs w)).
  - done.
  - by rewrite basename_resolve.
Qed.

(** X10. A subdirectory of the template is not copied: the entry of that name
    in the working directory is what it was. *)
Theorem subdirectories_are_not_copied t w r w' name :
  expandTemplateDirectory t w = (r, w') →
  isDirectory (resolve (tpl_dir t) name) (fs w) = true →
  lookup_path (resolve (cwd w) name) (fs w') = lookup_path (resolve (cwd w) name) (fs w).
Proof.
  intros He Hd. apply (expandTemplateDirectory_frame _ _ _ _ _ He).
  intros name' Hf. apply sibling_not_prefix. intros ->.
  unfold isFile, isDirectory in *.
  by destruct (lookup_path _ _) as [[]|].
Qed.

End Frame.

(** ** Failing hooks *)

Section Failures.

Variable exec : Json → node → bool * node.

Implicit Types (w : world) (p : phase) (names : list string).

Lemma spawns_app tr1 tr2 : spawns (tr1 ++ tr2) = (spawns tr1 ++ spawns tr2)%list.
Proof. apply omap_app. Qed.

Lemma chain_rejected names w e w' :
  chain exec names w = (Rejected e, w') →
  ∃ before name s after tr,
    configured_among names w = (before ++ (name, s) :: after)%list ∧
    trace w' = (trace w ++ tr)%list ∧
    spawns tr = (before ++ [(name, s)])%list ∧
    e = ScriptError s ∧
    exec s (run_in_sequence exec before (fs w)) = (false, fs w').
Proof.
  revert w. induction names as [|name names IH]; intros w; simpl; [done|].
  rewrite script_effect. unfold configured_among. cbn [omap list_omap].
  fold (configured_among names w).
  destruct (configured w name) as [s|] eqn:Hs; cbn [fmap option_fmap option_map and_then].
  - destruct (exec s (fs w)) as [ok fs1] eqn:He. cbn [fst snd].
    destruct ok; cbn [and_then].
    + intros Hc. apply IH in Hc as (before & n & s' & after & tr & Hcfg & Htr & Hsp & -> & Hex).
      simpl in *. rewrite (configured_among_same names w) in Hcfg by done.
      exists ((name, s) :: before), n, s', after,
             (Log info (Script name) :: Spawn name s :: tr).
      split_and!; try done.
      * simpl. by rewrite Hcfg.
      * by rewrite Htr, <-!(assoc_L (++)).
      * simpl. by rewrite Hsp.
      * unfold run_in_sequence in *. simpl. by rewrite He.
    + intros [= <- <-]. exists [], name, s, (configured_among names w),
                                [Log info (Script name); Spawn name s].
      split_and!; try done. simpl. by rewrite <-!(assoc_L (++)).
  - intros Hc. by apply IH in Hc.
Qed.

(** X11. When [invoke] rejects, it is with the error of the first script that
    failed: the configured scripts before it were spawned and succeeded, it
    was spawned on the file system they left, and no script after it was
    spawned. *)
Theorem invoke_stops_at_failing_hook p w e w' :
  invoke exec p w = (Rejected e, w') →
  ∃ before name s after,
    configured_hooks p w = (before ++ (name, s) :: after)%list ∧
    spawns (since w w') = (before ++ [(name, s)])%list ∧
    e = ScriptError s ∧
    exec s (run_in_sequence exec before (fs w)) = (false, fs w').
Proof.
  rewrite invoke_chain. intros Hc.
  apply chain_rejected in Hc as (before & n & s & after & tr & Hcfg & Htr & Hsp & -> & Hex).
  exists before, n, s, after. unfold configured_hooks.
  rewrite (configured_among_same _ w (log debug _ w)) in Hcfg by done.
  split_and!; try done.
  simpl in Htr. rewrite <-(assoc_L (++)) in Htr.
  by rewrite (since_app _ _ _ Htr).
Qed.

Lemma spawns_expansion tr : Forall expansion_event tr → spawns tr = [].
Proof.
  induction 1 as [|e tr He _ IH]; [done|].
  unfold spawns in *. cbn [omap list_omap]. rewrite IH. by destruct e.
Qed.

Lemma expandTemplateDirectory_throws t w e w' :
  expandTemplateDirectory t w = (inr e, w') → e = FsError (tpl_dir t) ∧ w' = w.
Proof.
  unfold expandTemplateDirectory.
  destruct (negb _); [done|].
  destruct (readdirSync _ _); [|by intros [= <- <-]].
  by destruct (expand_files _ _).
Qed.

(** X12. When a script of the [start] phase fails, the run stops there: the
    rejection is that script's, nothing of the template has been listed,
    read or written, and the [install] phase has not been invoked. *)
Theorem failed_start_hook_prevents_expansion name args w s w' :
  run exec name args w = (Unhandled (ScriptError s), w') →
  Forall (λ e, ¬ expansion_event e ∧ ¬ phase_event install e) (since w w').
Proof.
  unfold run. set (n := default "default" name).
  destruct (find_template n (templates w)) as [t|]; [|done].
  set (w1 := set_scripts _ _).
  destruct (invoke exec start w1) as [o1 w2] eqn:H1.
  destruct o1 as [|e|e]; [| |done].
  - destruct (expandTemplateDirectory t w2) as [[[t' ps]|e] w3] eqn:H2.
    + destruct (and_then _ _) as [[] ?]; done.
    + apply expandTemplateDirectory_throws in H2 as [-> _]. done.
  - intros [= -> <-].
    apply invoke_spec in H1 as (tr & Htr & _ & _ & Hev & _).
    assert (trace w2 = (trace w ++ Log info (Running n args)
                          :: Log debug (Invoke "start") :: tr)%list) as Hsince.
    { rewrite Htr. simpl. by rewrite <-(assoc_L (++)). }
    rewrite (since_app _ _ _ Hsince).
    constructor; [split; [exact id|by intros [|]]|].
    constructor; [split; [exact id|by intros [|]]|].
    eapply Forall_impl; [exact Hev|]. intros e He. split.
    + by apply (phase_not_expansion exec start), or_intror.
    + by apply (start_not_install exec), or_intror.
Qed.

Lemma no_scripts_configured w name :
  scripts w = Some (JObject ∅) → configured w name = None.
Proof. unfold configured. by intros ->. Qed.

Lemma invoke_without_scripts p w :
  scripts w = Some (JObject ∅) →
  invoke exec p w = (Resolved, log debug (Invoke (phase_name p)) w).
Proof.
  intros Hs. destruct (invoke exec p w) as [o w'] eqn:Hi.
  apply invoke_spec in Hi as (_ & _ & _ & _ & _ & _ & _ & Hnone & _).
  destruct Hnone as [-> ->]; [|done].
  unfold configured_hooks, configured_among, hook_names. simpl.
  by rewrite !no_scripts_configured.
Qed.

(** X13. A template whose manifest has no [bake] field (in particular a
    template without [package.json]) runs no hook: nothing is handed to
    [exec] in the whole run. *)
Theorem run_without_bake_spawns_nothing name args w t :
  find_template (default "default" name) (templates w) = Some t →
  props (tpl_json t) !! "bake" = None →
  spawns (since w (run exec name args w).2) = [].
Proof.
  intros Hfind Hbake. unfold run. rewrite Hfind, Hbake.
  set (n := default "default" name).
  assert ((if truthy (tpl_json t) then or_empty None else JObject ∅) = JObject ∅) as ->
    by (by destruct (truthy _)).
  change (or_empty (props (JObject ∅) !! "scripts")) with (JObject ∅).
  set (w1 := set_scripts _ _).
  rewrite (invoke_without_scripts start w1) by done.
  set (w2 := log debug _ w1).
  destruct (expandTemplateDirectory t w2) as [r w3] eqn:H2.
  pose proof (expandTemplateDirectory_advances _ _ _ _ H2) as [(_ & _ & Hs) (te & Hte & Fe)].
  assert (trace w3 = (trace w ++ Log info (Running n args)
                        :: Log debug (Invoke "start") :: te)%list) as H3.
  { rewrite Hte. simpl. by rewrite <-!(assoc_L (++)). }
  assert (spawns (Log info (Running n args) :: Log debug (Invoke "start") :: te) = [])
    as Hsp3 by (by apply (spawns_expansion te)).
  assert (∀ e, spawns (since w (emit e w3)) = spawns [e]) as Hemit.
  { intros e. erewrite since_app; [|simpl; rewrite H3, <-(assoc_L (++)); done].
    by rewrite spawns_app, Hsp3. }
  destruct r as [[t' ps]|e]; simpl.
  2:{ by rewrite (since_app _ _ _ H3). }
  destruct (Promise_all ps) as [|e|e]; simpl.
  - rewrite (invoke_without_scripts install w3) by done. simpl. apply Hemit.
  - apply Hemit.
  - by rewrite (since_app _ _ _ H3).
Qed.

End Failures.

(** ** Discovery *)

Section Discovery.

Implicit Types (w : world) (dir r : path) (ts : list loaded_template).

Lemma require_coherent p w :
  coherent w →
  coherent (require p w).2 ∧ fs (require p w).2 = fs w ∧
  (require p w).1 = match lookup_path p (fs w) with
                    | Some (File (Document j)) => inl j
                    | Some (File (Bytes _)) => inr (ParseError p)
                    | _ => inr (FsError p)
                    end.
Proof.
  intros Hc. unfold require.
  destruct (cache w !! p) as [j|] eqn:Hp.
  { simpl. split_and!; try done. by rewrite (Hc _ _ Hp). }
  destruct (lookup_path p (fs w)) as [[[s|j]|]|] eqn:Hl; simpl; split_and!; try done.
  intros q j'. simpl. destruct (decide (p = q)) as [<-|Hne].
  - rewrite lookup_insert_eq. by intros [= <-].
  - rewrite lookup_insert_ne by done. apply Hc.
Qed.

Lemma load_manifests_coherent dirs w :
  coherent w →
  fs (load_manifests dirs w).2 = fs w ∧
  match (load_manifests dirs w).1 with
  | inl ts => coherent (load_manifests dirs w).2 ∧
              map tpl_dir ts = dirs ∧
              Forall (λ t, tpl_name t = basename (tpl_dir t) ∧
                           manifest_of (tpl_dir t) (fs w) = Some (tpl_json t)) ts
  | inr _ => ∃ dir, dir ∈ dirs ∧ manifest_of dir (fs w) = None
  end.
Proof.
  revert w. induction dirs as [|dir dirs IH]; intros w Hc; simpl; [done|].
  unfold manifest_of at 2. unfold existsSync.
  pose proof (require_coherent (resolve dir "package.json") w Hc) as (Hc1 & Hfs1 & Hr).
  destruct (require (resolve dir "package.json") w) as [r1 w1]. simpl in *.
  destruct (lookup_path (resolve dir "package.json") (fs w)) as [nd|] eqn:Hl.
  - destruct r1 as [j|e].
    + specialize (IH w1 Hc1).
      destruct (load_manifests dirs w1) as [[ts|e] w2]; simpl in *;
        rewrite Hfs1 in IH.
      * destruct IH as (? & ? & Hmap & ?). split_and!; try done; [by rewrite Hmap|].
        constructor; [|done]. simpl. split; [done|]. unfold manifest_of. rewrite Hl.
        destruct nd as [[]|]; by simplify_eq.
      * destruct IH as (? & d & ? & ?). split; [done|]. exists d. split; [by right|done].
    + simpl. split; [done|]. exists dir. split; [by left|].
      unfold manifest_of. rewrite Hl. destruct nd as [[]|]; by simplify_eq.
  - specialize (IH w Hc).
    destruct (load_manifests dirs w) as [[ts|e] w2]; simpl in *.
    + destruct IH as (? & ? & Hmap & ?). split_and!; try done; [by rewrite Hmap|].
      constructor; [|done]. simpl. split; [done|]. unfold manifest_of. by rewrite Hl.
    + destruct IH as (? & d & ? & ?). split; [done|]. exists d. split; [by right|done].
Qed.

Lemma load_dirs_result dirs w :
  fs (load_dirs dirs w).2 = fs w ∧ cache (load_dirs dirs w).2 = cache w ∧
  match (load_dirs dirs w).1 with
  | inl ds => ds = flat_map (λ dir, subdirectories dir (fs w)) dirs ∧
              Forall (λ dir, isDirectory dir (fs w) = true) dirs
  | inr _ => ∃ dir, dir ∈ dirs ∧ isDirectory dir (fs w) = false
  end.
Proof.
  revert w. induction dirs as [|dir dirs IH]; intros w; simpl; [done|].
  unfold loadTemplatesFrom, subdirectories at 1, readdirSync, isDirectory at 2 4. simpl.
  destruct (lookup_path dir (fs w)) as [[c|entries]|] eqn:Hl; simpl;
    try (split_and!; try done; exists dir; split; [by left|]; unfold isDirectory;
         by rewrite Hl).
  set (w1 := emit _ _). specialize (IH w1).
  destruct (load_dirs dirs w1) as [[ds|e] w2]; simpl in *.
  - destruct IH as (? & ? & -> & ?). split_and!; try done.
    constructor; [|done]. unfold isDirectory. by rewrite Hl.
  - destruct IH as (? & ? & d & ? & ?). split_and!; try done.
    exists d. split; [by right|done].
Qed.

Lemma loadTemplates_result roots w :
  coherent w →
  fs (loadTemplates roots w).2 = fs w ∧
  match (loadTemplates roots w).1 with
  | inl ts =>
      loadable roots (fs w) ∧
      (∀ d, d ∈ map tpl_dir ts ↔
            ∃ r name, r ∈ roots ∧ d = resolve r name ∧ isDirectory d (fs w) = true) ∧
      Forall (λ t, tpl_name t = basename (tpl_dir t) ∧
                   manifest_of (tpl_dir t) (fs w) = Some (tpl_json t)) ts
  | inr _ => ¬ loadable roots (fs w)
  end.
Proof.
  intros Hc. unfold loadTemplates.
  set (w0 := log debug _ w). set (dirs := List.filter _ roots).
  assert (coherent w0) as Hc0 by done.
  pose proof (load_dirs_result dirs w0) as (Hfs1 & Hca1 & Hd).
  assert (∀ d, d ∈ flat_map (λ dir, subdirectories dir (fs w)) dirs ↔
               ∃ r name, r ∈ roots ∧ d = resolve r name ∧ isDirectory d (fs w) = true)
    as Hsub.
  { intros d. rewrite list_elem_of_In, in_flat_map. split.
    - intros (r & [Hr _]%filter_In & (name & -> & Hdir)%list_elem_of_In%subdirectories_spec).
      exists r, name. by rewrite list_elem_of_In.
    - intros (r & name & Hr & -> & Hdir). exists r. split.
      + apply filter_In. split; [by apply list_elem_of_In|].
        by eapply existsSync_parent.
      + apply list_elem_of_In, subdirectories_spec. by exists name. }
  destruct (load_dirs dirs w0) as [[ds|e] w1]; simpl in *.
  - destruct Hd as [-> Hdirs].
    assert (coherent w1) as Hc1.
    { intros p j. rewrite Hca1, Hfs1. apply Hc. }
    set (ds := flat_map _ dirs) in *.
    pose proof (load_manifests_coherent ds w1 Hc1) as [Hfs2 Hm].
    destruct (load_manifests ds w1) as [[ts|e] w2]; simpl in *;
      rewrite Hfs1 in *; (split; [done|]).
    + destruct Hm as (_ & Hmap & Hman).
      split_and!.
      * split.
        -- intros r Hr Hex. rewrite Forall_forall in Hdirs. apply Hdirs.
           apply list_elem_of_In, filter_In. by rewrite <-list_elem_of_In.
        -- intros r name Hr Hdir.
           assert (resolve r name ∈ map tpl_dir ts) as Hin
             by (rewrite Hmap; apply Hsub; by exists r, name).
           apply list_elem_of_fmap in Hin as (t & -> & Ht).
           rewrite Forall_forall in Hman. destruct (Hman t Ht) as [_ ->]. by eexists.
      * intros d. by rewrite Hmap.
      * done.
    + destruct Hm as (d & Hd & Hnone). intros [_ Hl].
      apply Hsub in Hd as (r & name & Hr & -> & Hdir).
      destruct (Hl r name Hr Hdir) as [? ?]. congruence.
  - destruct Hd as (d & [Hd Hex]%list_elem_of_In%filter_In & Hnd).
    rewrite Hfs1. split; [done|]. intros [Hl _].
    rewrite (Hl d) in Hnd; [done| |done]. by apply list_elem_of_In.
Qed.

Lemma load_manifests_fs dirs w : fs (load_manifests dirs w).2 = fs w.
Proof.
  revert w. induction dirs as [|dir dirs IH]; intros w; simpl; [done|].
  destruct (existsSync _ _).
  - destruct (require _ w) as [[j|e] w1] eqn:Hr; [|by apply require_keeps_fs in Hr].
    apply require_keeps_fs in Hr. rewrite <-Hr, <-(IH w1).
    by destruct (load_manifests dirs w1) as [[] ?].
  - rewrite <-(IH w). by destruct (load_manifests dirs w) as [[] ?].
Qed.

(** X14. Discovery. The templates that [loadTemplates] returns are exactly
    the immediate subdirectories of the roots, each named after its
    directory, and loading changes no file. *)
Theorem loadTemplates_discovers roots w ts w' :
  loadTemplates roots w = (inl ts, w') →
  fs w' = fs w ∧
  (∀ d, d ∈ map tpl_dir ts ↔
        ∃ r name, r ∈ roots ∧ d = resolve r name ∧ isDirectory d (fs w) = true) ∧
  Forall (λ t, tpl_name t = basename (tpl_dir t)) ts.
Proof.
  unfold loadTemplates. set (w0 := log debug _ w). set (dirs := List.filter _ roots).
  pose proof (load_dirs_result dirs w0) as (Hfs1 & _ & Hd).
  destruct (load_dirs dirs w0) as [[ds|e] w1]; [|done]. simpl in *.
  destruct Hd as [-> _]. intros Hl.
  assert (fs w' = fs w1) as Hfs2.
  { pose proof (load_manifests_fs (flat_map (λ dir, subdirectories dir (fs w)) dirs) w1) as H.
    by rewrite Hl in H. }
  apply load_manifests_spec in Hl as [Hmap Hnames].
  split_and!; [congruence| |done].
  intros d. rewrite Hmap, list_elem_of_In, in_flat_map. split.
  - intros (r & [Hr _]%filter_In & (name & -> & Hdir)%list_elem_of_In%subdirectories_spec).
    exists r, name. by rewrite list_elem_of_In.
  - intros (r & name & Hr & -> & Hdir). exists r. split.
    + apply filter_In. split; [by apply list_elem_of_In|].
      by eapply existsSync_parent.
    + apply list_elem_of_In, subdirectories_spec. by exists name.
Qed.


(** X16. The manifest of a loaded template is the document of the
    [package.json] of its directory, and the empty object when the
    directory has none. *)
Theorem loaded_manifests roots w ts w' t :
  coherent w →
  loadTemplates roots w = (inl ts, w') →
  t ∈ ts →
  (existsSync (resolve (tpl_dir t) "package.json") (fs w) = false → tpl_json t = JObject ∅) ∧
  (∀ doc, lookup_path (resolve (tpl_dir t) "package.json") (fs w) = Some (File (Document doc)) →
          tpl_json t = doc).
Proof.
  intros Hc Hl Ht. pose proof (loadTemplates_result roots w Hc) as [_ Hr].
  rewrite Hl in Hr. simpl in Hr. destruct Hr as (_ & _ & Hm).
  rewrite Forall_forall in Hm. destruct (Hm t Ht) as [_ Hman].
  unfold manifest_of, existsSync in *.
  destruct (lookup_path _ _) as [[[]|]|]; simplify_eq; split; try done.
  by intros ? [= <-].
Qed.

End Discovery.

(** ** Looking a name up *)

Section Lookup.

Lemma indexOf_bound name l : (-1 ≤ indexOf name l)%Z.
Proof.
  induction l as [|n l IH]; simpl; [done|].
  destruct (String.eqb n name); [done|]. case_match; lia.
Qed.

Lemma indexOf_absent name l : indexOf name l = (-1)%Z ↔ name ∉ l.
Proof.
  induction l as [|n l IH]; simpl; [by split; [intros _ ?%elem_of_nil|]|].
  rewrite not_elem_of_cons. destruct (String.eqb n name) eqn:Hn.
  - apply String.eqb_eq in Hn as ->. split; [done|]. by intros [? _].
  - apply String.eqb_neq in Hn. pose proof (indexOf_bound name l).
    destruct (Z.eqb_spec (indexOf name l) (-1)) as [Hi|Hi].
    + split; [|done]. intros _. split; [done|]. by apply IH.
    + split; [lia|]. intros [_ Hl]. by apply IH in Hl.
Qed.

(** X17. [has] says whether [run] will find a template: it is true of the
    names of the loaded templates exactly when the lookup of [run]
    succeeds. *)
Theorem has_iff_found name ts :
  has name (names ts) = true ↔ is_Some (find_template name ts).
Proof.
  unfold has, names, find_template. rewrite negb_true_iff, Z.eqb_neq, indexOf_absent.
  induction ts as [|t ts IH]; simpl.
  - split; [intros H; destruct H; apply not_elem_of_nil | by intros [? ?]].
  - destruct (String.eqb (tpl_name t) name) eqn:Hn.
    + apply String.eqb_eq in Hn as <-. split; [by eexists|]. intros _ H. apply H. by left.
    + apply String.eqb_neq in Hn. rewrite <-IH. rewrite not_elem_of_cons. naive_solver.
Qed.

End Lookup.

(** ** The end of [init] *)

Section Ending.

Variable exec : Json → node → bool * node.

Implicit Types (w : world) (argv : list string).

(** A run only adds to the trace. *)
Lemma run_extends name args w c w' :
  run exec name args w = (c, w') → trace w' = (trace w ++ since w w')%list.
Proof.
  intros Hrun.
  assert (∃ tr, trace w' = (trace w ++ tr)%list) as [tr Htr];
    [|by rewrite (since_app _ _ _ Htr)].
  revert Hrun. unfold run. set (n := default "default" name).
  destruct (find_template n (templates w)) as [t|];
    [|intros [= <- <-]; by eexists].
  set (w1 := set_scripts _ _).
  assert (trace w1 = (trace w ++ [Log info (Running n args)])%list) as H0 by done.
  destruct (invoke exec start w1) as [o1 w2] eqn:H1.
  apply invoke_advances in H1 as [_ (ts & Hts & _)].
  rewrite H0, <-(assoc_L (++)) in Hts.
  destruct o1 as [|e|e]; [|intros [= <- <-]; eexists; exact Hts..].
  destruct (expandTemplateDirectory t w2) as [r w3] eqn:H2.
  apply expandTemplateDirectory_advances in H2 as [_ (te & Hte & _)].
  rewrite Hts, <-(assoc_L (++)) in Hte.
  destruct r as [[t' promises]|e]; [|intros [= <- <-]; eexists; exact Hte].
  unfold and_then. destruct (Promise_all promises) as [|e|e].
  - destruct (invoke exec install w3) as [o3 w4] eqn:H3.
    apply invoke_advances in H3 as [_ (ti & Hti & _)].
    rewrite Hte, <-(assoc_L (++)) in Hti.
    destruct o3 as [|e|e]; intros [= <- <-]; simpl; rewrite Hti, <-?(assoc_L (++));
      by eexists.
  - intros [= <- <-]. simpl. rewrite Hte, <-?(assoc_L (++)). by eexists.
  - intros [= <- <-]. eexists; exact Hte.
Qed.

Lemma run_never_ends name args w c w' :
  run exec name args w = (c, w') → Ended ∉ since w w'.
Proof.
  intros (t0 & ts & te & ti & tf & -> & F0 & Fs & Fe & Fi & Ff)%run_trace.
  assert (∀ p tr, Forall (phase_event p) tr → Ended ∉ tr) as Hphase.
  { intros p tr F Hin. apply (proj1 (Forall_forall _ _) F) in Hin as [?|[]]. by destruct p. }
  rewrite !elem_of_app. intros [H|[H|[H|[H|H]]]].
  - by apply (proj1 (Forall_forall _ _) F0) in H as (? & ? & ?).
  - by apply (Hphase _ _ Fs).
  - by apply (proj1 (Forall_forall _ _) Fe) in H.
  - by apply (Hphase _ _ Fi).
  - destruct Ff as [[-> _]|(m & -> & _)]; [by apply elem_of_nil in H|].
    by apply list_elem_of_singleton in H.
Qed.

(** X18. [this.end()] is called exactly when [init] ran a template and the
    promise of the run resolved: not with [--help], not after a failure of
    any kind. When it is called it is the last thing [init] does. *)
Theorem init_ends_iff_run_fulfilled help argv w c w' :
  init exec help argv w = (c, w') →
  (Ended ∈ since w w' ↔ help = false ∧ c = Fulfilled) ∧
  (Ended ∈ since w w' → last (since w w') = Some Ended).
Proof.
  unfold init. destruct help.
  { intros [= <- <-]. rewrite (since_app w _ [Log debug Help]) by done.
    split; [|by intros [=]%list_elem_of_singleton].
    split; [by intros [=]%list_elem_of_singleton | by intros [[=] _]]. }
  destruct (run exec (head argv) (tail argv) w) as [c1 w1] eqn:Hrun.
  pose proof (run_never_ends _ _ _ _ _ Hrun) as Hnever.
  pose proof (run_extends _ _ _ _ _ Hrun) as Hext.
  destruct c1; intros [= <- <-]; try (split; [split; [done|by intros [_ [=]]]|done]).
  rewrite (since_app w _ (since w w1 ++ [Ended])%list)
    by (simpl; by rewrite Hext at 1; rewrite <-(assoc_L (++))).
  split; [|by rewrite last_snoc].
  split; [done|]. intros _. apply elem_of_app. right. by left.
Qed.

End Ending.

(** ** The scenarios, as instances of the theorems *)

Section Instances.

Import Scenario.


Lemma merge_idempotent_scenario_B :
  merge lodash3 lodash4_chalk2 = Some merged_B ∧
  ∃ r', merge (stringify merged_B) lodash4_chalk2 = Some r' ∧
        stringify r' = stringify merged_B.
Proof.
  assert (merge lodash3 lodash4_chalk2 = Some merged_B) as Hm
    by (vm_compute; reflexivity).
  split; [exact Hm|]. exact (merge_idempotent lodash3 lodash4_chalk2 merged_B Hm).
Defined.

(** A destination that has a manifest with a [bake] key of its own, and a
    template manifest with hooks: the merged file has no [bake] key. *)
Lemma json_written_scenario :
  let file := ["templates"; "node"; "package.json"] in
  let dest := ["project"; "package.json"] in
  let w := boot (disk manifest_A {[ "package.json" := File (Document baked_destination) ]}) in
  let w' := (json file dest w).2 in
  json file dest w = (Resolved, w') ∧
  ∃ out, lookup_path dest (fs w') = Some (File (Document out)) ∧
         props out !! "bake" = None.
Proof.
  intros file dest w w'.
  assert (json file dest w = (Resolved, w')) as Hj by (vm_compute; reflexivity).
  split; [exact Hj|].
  generalize (json_written file dest w w' Hj).
  assert (existsSync dest (fs w) = true) as -> by (vm_compute; reflexivity).
  exact id.
Defined.

(** The project already has a [Makefile]: the template's is not copied. *)
Lemma existing_file_is_skipped_scenario :
  let file := ["templates"; "node"; "Makefile"] in
  let w := boot (disk manifest_A {[ "Makefile" := File (Bytes "mine") ]}) in
  ∃ w', expand_file file w = (Resolved, w') ∧
        lookup_path ["project"; "Makefile"] (fs w') = Some (File (Bytes "mine")).
Proof.
  intros file w.
  destruct (existing_file_is_skipped file w) as (w' & He & Hfs & _);
    [vm_compute; discriminate | vm_compute; reflexivity..|].
  exists w'. split; [exact He|]. rewrite Hfs. vm_compute. reflexivity.
Defined.

Lemma unknown_template_scenario :
  let w := loaded (disk manifest_A ∅) in
  ∃ w', run sh (Some "es6") [] w = (Exited, w') ∧
        fs w' = fs w ∧ cache w' = cache w ∧
        since w w' = [Fail (NoTemplate "es6")].
Proof.
  intros w. apply (unknown_template_fails_untouched sh (Some "es6") [] w).
  vm_compute. repeat constructor. discriminate.
Defined.

(** A template with a [start] and an [install] hook, applied to an empty
    project: the [start] script is spawned before the first file event. *)
Lemma phases_are_separated_scenario :
  let w := loaded (disk manifest_hooks ∅) in
  let w' := (run sh (Some "node") [] w).2 in
  since w w' !! 3 = Some (Spawn "start" (JString "echo start")) ∧
  since w w' !! 4 = Some (Readdir ["templates"; "node"]) ∧
  3 < 4.
Proof.
  intros w w'.
  assert (since w w' !! 3 = Some (Spawn "start" (JString "echo start"))) as H3
    by (vm_compute; reflexivity).
  assert (since w w' !! 4 = Some (Readdir ["templates"; "node"])) as H4
    by (vm_compute; reflexivity).
  split; [exact H3|]. split; [exact H4|].
  apply (proj1 (phases_are_separated sh (Some "node") [] w 3 4 _ _ H3 H4)).
  - right. by apply (list_elem_of_lookup_2 _ 1).
  - exact I.
Defined.

Lemma expand_missing_directory_scenario :
  let t := LoadedTemplate ["templates"; "gone"] "gone" (JObject ∅) in
  let w := boot (disk manifest_A ∅) in
  existsSync (tpl_dir t) (fs w) = false ∧
  expandTemplateDirectory t w = (inl (t, None), w).
Proof.
  intros t w.
  assert (existsSync (tpl_dir t) (fs w) = false) as Hd by (vm_compute; reflexivity).
  split; [exact Hd|]. exact (expand_missing_directory t w Hd).
Defined.

(** [node] exists in [/templates] and in [/bundled]: the one of [/templates]
    is found, the first root not being there at all. *)
Lemma first_root_wins_scenario :
  let w := boot shadowing_disk in
  let loaded := loadTemplates three_roots w in
  let ts := match loaded.1 with inl ts => ts | inr _ => [] end in
  loaded = (inl ts, loaded.2) ∧
  ∃ t, find_template "node" ts = Some t ∧
       tpl_dir t = ["templates"; "node"] ∧ tpl_name t = "node".
Proof.
  intros w loaded ts.
  assert (loaded = (inl ts, loaded.2)) as Hl by (vm_compute; reflexivity).
  split; [exact Hl|].
  refine (proj1 (first_root_wins sh three_roots
                   [["home"; ".config"; "bake"; "templates"]] ["templates"] [["bundled"]]
                   "node" w ts loaded.2 eq_refl _ _ Hl)).
  - repeat constructor.
  - vm_compute. reflexivity.
Defined.


(** The [Makefile] of the template copied into an empty project. *)
Lemma stream_copies_scenario :
  let file := ["templates"; "node"; "Makefile"] in
  let dest := ["project"; "Makefile"] in
  let w := boot (disk manifest_A ∅) in
  ∃ w', stream file dest w = (Resolved, w') ∧
        lookup_path dest (fs w') = Some (File (Bytes "all: build")).
Proof.
  intros file dest w.
  destruct (stream_copies file dest w (Bytes "all: build")
              (default (fs w) (write_file dest (Bytes "all: build") (fs w))))
    as (w' & Hs & _ & Hl & _); [vm_compute; reflexivity..|].
  by exists w'.
Defined.

(** C7 fails on the code. The [start] hook of the template exits with a
    non-zero status: the promise that [init] returns is rejected, and
    [CLI.fail] is never called. *)
Lemma start_hook_failure_is_not_reported :
  let w := loaded (disk manifest_start_fails ∅) in
  let '(c, w') := init sh false ["node"] w in
  c = Unhandled (ScriptError (JString "false")) ∧
  reports (since w w') = [].
Proof. vm_compute. split; reflexivity. Qed.

(** The same failure in the [install] hook is reported, once. *)
Lemma install_hook_failure_is_reported_once :
  let w := loaded (disk manifest_install_fails ∅) in
  let '(c, w') := init sh false ["node"] w in
  c = Exited ∧
  reports (since w w') = [Caught (ScriptError (JString "false"))].
Proof. vm_compute. split; reflexivity. Qed.


(** The project's own [Makefile] survives the expansion of a template that
    has one. *)
Lemma expansion_keeps_existing_files_scenario :
  let w := boot (disk manifest_A {[ "Makefile" := File (Bytes "mine") ]}) in
  let w' := (expandTemplateDirectory (node_of manifest_A) w).2 in
  lookup_path ["project"; "Makefile"] (fs w') = Some (File (Bytes "mine")).
Proof.
  intros w w'.
  apply (expansion_keeps_existing_files (node_of manifest_A) w
           (expandTemplateDirectory (node_of manifest_A) w).1 w').
  - vm_compute. reflexivity.
  - vm_compute. reflexivity.
  - vm_compute. discriminate.
Defined.

(** The template's own files are left as they are. *)
Lemma expansion_touches_only_template_names_scenario :
  let w := boot (disk manifest_A ∅) in
  let w' := (expandTemplateDirectory (node_of manifest_A) w).2 in
  lookup_path ["templates"; "node"; "Makefile"] (fs w') =
  lookup_path ["templates"; "node"; "Makefile"] (fs w).
Proof.
  intros w w'.
  apply (expansion_touches_only_template_names (node_of manifest_A) w
           (expandTemplateDirectory (node_of manifest_A) w).1 w').
  - vm_compute. reflexivity.
  - intros name _ [k Hk]. discriminate Hk.
Defined.

(** [utils.sh] of the template arrives in an empty project. *)
Lemma expansion_copies_new_files_scenario :
  let w := boot (disk manifest_A ∅) in
  let w' := (expandTemplateDirectory (node_of manifest_A) w).2 in
  lookup_path ["project"; "utils.sh"] (fs w') = Some (File (Bytes "#!/bin/sh")).
Proof.
  intros w w'.
  apply (expansion_copies_new_files (node_of manifest_A) w (node_of manifest_A)
           [Resolved; Resolved; Resolved] w' "utils.sh" (Bytes "#!/bin/sh"));
    vm_compute; reflexivity.
Defined.

(** The directory [src] of the template is not created in the project. *)
Lemma subdirectories_are_not_copied_scenario :
  let t := LoadedTemplate ["templates"; "lib"] "lib" (JObject ∅) in
  let w := boot nested_disk in
  let w' := (expandTemplateDirectory t w).2 in
  lookup_path ["project"; "src"] (fs w') = None ∧
  lookup_path ["project"; "Makefile"] (fs w') = Some (File (Bytes "all: build")).
Proof.
  intros t w w'. split; [|vm_compute; reflexivity].
  assert (lookup_path ["project"; "src"] (fs w) = None) as <- by (vm_compute; reflexivity).
  apply (subdirectories_are_not_copied t w (expandTemplateDirectory t w).1 w' "src");
    vm_compute; reflexivity.
Defined.

(** [prestart] runs, [start] fails, [poststart] is not spawned. *)
Lemma invoke_stops_at_failing_hook_scenario :
  let w := set_scripts (Some start_scripts) (boot (disk manifest_A ∅)) in
  let w' := (invoke sh start w).2 in
  invoke sh start w = (Rejected (ScriptError (JString "false")), w') ∧
  ∃ before name s after,
    configured_hooks start w = (before ++ (name, s) :: after)%list ∧
    spawns (since w w') = (before ++ [(name, s)])%list ∧
    ScriptError (JString "false") = ScriptError s ∧
    sh s (run_in_sequence sh before (fs w)) = (false, fs w').
Proof.
  intros w w'.
  assert (invoke sh start w = (Rejected (ScriptError (JString "false")), w')) as Hi
    by (vm_compute; reflexivity).
  split; [exact Hi|].
  exact (invoke_stops_at_failing_hook sh start w _ w' Hi).
Defined.

(** The [start] hook of the template fails: no file of the template is
    read. *)
Lemma failed_start_hook_prevents_expansion_scenario :
  let w := loaded (disk manifest_start_fails ∅) in
  let w' := (run sh (Some "node") [] w).2 in
  run sh (Some "node") [] w = (Unhandled (ScriptError (JString "false")), w') ∧
  Forall (λ e, ¬ expansion_event e ∧ ¬ phase_event install e) (since w w').
Proof.
  intros w w'.
  assert (run sh (Some "node") [] w = (Unhandled (ScriptError (JString "false")), w'))
    as Hr by (vm_compute; reflexivity).
  split; [exact Hr|].
  exact (failed_start_hook_prevents_expansion sh (Some "node") [] w _ w' Hr).
Defined.

(** A template whose manifest has a name and a version and nothing else. *)
Lemma run_without_bake_spawns_nothing_scenario :
  let w := loaded (disk named_template ∅) in
  spawns (since w (run sh (Some "node") [] w).2) = [].
Proof.
  intros w.
  apply (run_without_bake_spawns_nothing sh (Some "node") [] w (node_of named_template));
    vm_compute; reflexivity.
Defined.

(** The two roots that exist hold three templates between them. *)
Lemma loadTemplates_discovers_scenario :
  let w := boot shadowing_disk in
  let r := loadTemplates three_roots w in
  let ts := match r.1 with inl ts => ts | inr _ => [] end in
  map tpl_name ts = ["node"; "es6"; "node"] ∧
  fs r.2 = fs w ∧
  (∀ d, d ∈ map tpl_dir ts ↔
        ∃ root name, root ∈ three_roots ∧ d = resolve root name ∧
                     isDirectory d (fs w) = true) ∧
  Forall (λ t, tpl_name t = basename (tpl_dir t)) ts.
Proof.
  intros w r ts. split; [vm_compute; reflexivity|].
  apply (loadTemplates_discovers three_roots w ts r.2). vm_compute. reflexivity.
Defined.


(** Every template loaded from the two roots carries the document of its
    own [package.json]. *)
Lemma loaded_manifests_scenario :
  let w := boot shadowing_disk in
  let r := loadTemplates three_roots w in
  let ts := match r.1 with inl ts => ts | inr _ => [] end in
  length ts = 3 ∧
  ∀ t, t ∈ ts →
       ∀ doc, lookup_path (resolve (tpl_dir t) "package.json") (fs w)
              = Some (File (Document doc)) →
              tpl_json t = doc.
Proof.
  intros w r ts. split; [vm_compute; reflexivity|]. intros t Ht.
  exact (proj2 (loaded_manifests three_roots w ts r.2 t
                  ltac:(intros p j H; discriminate H)
                  ltac:(vm_compute; reflexivity) Ht)).
Defined.


(** A run that resolves is ended, and that is the last event. *)
Lemma init_ends_iff_run_fulfilled_scenario :
  let w := loaded (disk manifest_A ∅) in
  let w' := (init sh false ["node"] w).2 in
  init sh false ["node"] w = (Fulfilled, w') ∧
  Ended ∈ since w w' ∧ last (since w w') = Some Ended.
Proof.
  intros w w'.
  assert (init sh false ["node"] w = (Fulfilled, w')) as Hi by (vm_compute; reflexivity).
  split; [exact Hi|].
  destruct (init_ends_iff_run_fulfilled sh false ["node"] w Fulfilled w' Hi) as [Hiff Hlast].
  assert (Ended ∈ since w w') as He by (apply Hiff; split; reflexivity).
  split; [exact He | exact (Hlast He)].
Defined.

End Instances.
